(** * go-maildir: a shallow embedding of [maildir.go]

    The package gives access to mailboxes in the Maildir format.  Message
    state lives in file names only, so the embedding is made of

    - Go strings as byte strings ([string] of the Standard Library is a list
      of 8-bit [ascii] characters), with the UTF-8 decoding Go applies when a
      string is ranged over or converted to [[]rune];
    - the library functions the package calls ([strings.FieldsFunc],
      [strings.Replace], [strconv.FormatInt], [hex.EncodeToString],
      [filepath.Match], [filepath.Glob], [sort.Sort]), after the Go
      standard library (since Go 1.16 [Match] and [Glob] report a syntax
      error in any part of the pattern);
    - a file system holding the directories of a mailbox, on which
      [os.Rename] acts and may be refused by the operating system;
    - the functions of the package themselves: [Unseen], [Keys], [Filename],
      [Flags], [SetInfo] and [Key], with Go's run-time panics (index out of
      range) made explicit.

    Scope of the file-system model: directories contain regular files only,
    the mailbox path is a clean, non-empty path ([clean_dir]) without glob
    metacharacters ([literal]), and entry names and keys are proper names
    without ['/'].  Under these conditions [filepath.Join] is concatenation
    with ['/'], and [filepath.Glob] lists one directory.  A directory is
    listed in the order of its list; the place a renamed file takes in the
    listing of its directory is the file system's own choice, so what is
    stated of a listing read after a rename is stated for every order. *)

From Stdlib Require Import List String Ascii ZArith NArith Bool Arith Lia.
From Stdlib Require Import Sorting.Sorted Sorting.Permutation.
From Stdlib Require Import Numbers.DecimalString Numbers.DecimalZ.
Import ListNotations.

Open Scope list_scope.
Open Scope string_scope.

(* ================================================================= *)
(** ** Go values: bytes, runes, panics, errors *)

(** A rune is an [int32]; the runes produced by decoding lie in
    [0 .. 0x10FFFF]. *)
Definition rune := Z.

Definition byteZ (c : ascii) : Z := Z.of_N (N_of_ascii c).
Definition byte_of_Z (z : Z) : ascii := ascii_of_N (Z.to_N z).

(** Run-time panics of the Go code. *)
Inductive panic : Type :=
| IndexOutOfRange (index len : nat).

(** What a call does: it returns, or it panics. *)
Inductive outcome (A : Type) : Type :=
| Returns (a : A)
| Panics (p : panic).
Arguments Returns {A} a.
Arguments Panics {A} p.

Definition bind {A B : Type} (m : outcome A) (k : A -> outcome B) : outcome B :=
  match m with
  | Returns a => k a
  | Panics p => Panics p
  end.

Declare Scope go_scope.
Delimit Scope go_scope with go.
Notation "x <- m ;; k" := (bind m (fun x => k))
  (at level 61, m at next level, right associativity) : go_scope.
Open Scope go_scope.

(** [s[i]] on a string: the byte at [i], or a panic. *)
Definition index_byte (s : string) (i : nat) : outcome ascii :=
  match String.get i s with
  | Some c => Returns c
  | None => Panics (IndexOutOfRange i (String.length s))
  end.

(** [xs[i]] on a slice. *)
Definition index {A : Type} (xs : list A) (i : nat) : outcome A :=
  match nth_error xs i with
  | Some x => Returns x
  | None => Panics (IndexOutOfRange i (List.length xs))
  end.

(** [s[n:]] for [n <= len(s)]. *)
Fixpoint drop (n : nat) (s : string) : string :=
  match n, s with
  | O, _ => s
  | S n', String _ t => drop n' t
  | S _, EmptyString => EmptyString
  end.

(** Error numbers of the operating system. *)
Inductive Errno : Type :=
| ENOENT | EPERM | EACCES | EISDIR | ENAMETOOLONG | EIO.

(** The error values that flow through the package: its own [KeyError] and
    [FlagError], and those of the libraries it calls. *)
Inductive error : Type :=
| KeyError (Key : string) (N : nat)
| FlagError (Info : string) (Experimental : bool)
| ErrBadPattern
| PathError (Op Path : string) (Err : Errno)
| LinkError (Op Old New : string) (Err : Errno)
| SyscallError (Syscall : string) (Err : Errno)
| ErrUnexpectedEOF.

Definition Errno_eq_dec (a b : Errno) : {a = b} + {a <> b}.
Proof. decide equality. Defined.

Definition error_eq_dec (a b : error) : {a = b} + {a <> b}.
Proof.
  decide equality;
    auto using string_dec, Nat.eq_dec, Bool.bool_dec, Errno_eq_dec.
Defined.

(** A Go [error] is [nil] or an error value. *)
Definition goerror := option error.

(** [e1 != e2] on [error] interfaces.  Go compares the dynamic type and
    value (the address, for the pointer-typed errors); on one and the same
    variable both agree with structural equality. *)
Definition error_neq (e1 e2 : goerror) : bool :=
  match e1, e2 with
  | None, None => false
  | Some a, Some b => if error_eq_dec a b then false else true
  | _, _ => true
  end.

(* ================================================================= *)
(** ** unicode/utf8 *)

Definition RuneError : rune := 0xFFFD%Z.

Definition in_range (lo hi b : Z) : bool := (lo <=? b)%Z && (b <=? hi)%Z.

(** The six low bits of a continuation byte. *)
Definition cont (b : Z) : Z := Z.land b 0x3F%Z.

(** [utf8.DecodeRuneInString]: the first rune of [s] and its width in
    bytes; [(RuneError, 0)] on the empty string and [(RuneError, 1)] on an
    invalid encoding. *)
Definition DecodeRuneInString (s : string) : rune * nat :=
  match s with
  | EmptyString => (RuneError, 0)
  | String c0 t =>
    let b0 := byteZ c0 in
    if (b0 <? 0x80)%Z then (b0, 1)
    else if (b0 <? 0xC2)%Z || (0xF4 <? b0)%Z then (RuneError, 1)
    else if (b0 <? 0xE0)%Z then
      match t with
      | String c1 _ =>
        let b1 := byteZ c1 in
        if in_range 0x80 0xBF b1
        then (Z.lor (Z.shiftl (Z.land b0 0x1F) 6) (cont b1), 2)
        else (RuneError, 1)
      | _ => (RuneError, 1)
      end
    else if (b0 <? 0xF0)%Z then
      let lo := if (b0 =? 0xE0)%Z then 0xA0%Z else 0x80%Z in
      let hi := if (b0 =? 0xED)%Z then 0x9F%Z else 0xBF%Z in
      match t with
      | String c1 (String c2 _) =>
        let b1 := byteZ c1 in
        let b2 := byteZ c2 in
        if in_range lo hi b1 && in_range 0x80 0xBF b2
        then (Z.lor (Z.shiftl (Z.land b0 0x0F) 12)
                    (Z.lor (Z.shiftl (cont b1) 6) (cont b2)), 3)
        else (RuneError, 1)
      | _ => (RuneError, 1)
      end
    else
      let lo := if (b0 =? 0xF0)%Z then 0x90%Z else 0x80%Z in
      let hi := if (b0 =? 0xF4)%Z then 0x8F%Z else 0xBF%Z in
      match t with
      | String c1 (String c2 (String c3 _)) =>
        let b1 := byteZ c1 in
        let b2 := byteZ c2 in
        let b3 := byteZ c3 in
        if in_range lo hi b1 && in_range 0x80 0xBF b2 && in_range 0x80 0xBF b3
        then (Z.lor (Z.shiftl (Z.land b0 0x07) 18)
                    (Z.lor (Z.shiftl (cont b1) 12)
                           (Z.lor (Z.shiftl (cont b2) 6) (cont b3))), 4)
        else (RuneError, 1)
      | _ => (RuneError, 1)
      end
  end.

Arguments DecodeRuneInString : simpl never.

(** [s[:n]]. *)
Fixpoint take (n : nat) (s : string) : string :=
  match n, s with
  | S n', String c t => String c (take n' t)
  | _, _ => EmptyString
  end.

(** [for _, r := range s]: the runes of [s], each with the bytes it was
    decoded from.  [skip] counts the bytes of the current rune still to be
    passed over. *)
Fixpoint range_from (skip : nat) (s : string) : list (rune * string) :=
  match s with
  | EmptyString => []
  | String _ t =>
    match skip with
    | S k => range_from k t
    | O =>
      let (r, n) := DecodeRuneInString s in
      (r, take n s) :: range_from (n - 1) t
    end
  end.

Definition range_string (s : string) : list (rune * string) := range_from 0 s.

(** [[]rune(s)]. *)
Definition runes_of_string (s : string) : list rune := map fst (range_string s).

(** [utf8.EncodeRune] / [string(r)]: the UTF-8 encoding of [r]; a rune
    outside the valid ranges encodes as U+FFFD. *)
Definition encode_valid (r : Z) : string :=
  if (r <? 0x80)%Z then String (byte_of_Z r) ""
  else if (r <? 0x800)%Z then
    String (byte_of_Z (Z.lor 0xC0 (Z.shiftr r 6)))
      (String (byte_of_Z (Z.lor 0x80 (cont r))) "")
  else if (r <? 0x10000)%Z then
    String (byte_of_Z (Z.lor 0xE0 (Z.shiftr r 12)))
      (String (byte_of_Z (Z.lor 0x80 (cont (Z.shiftr r 6))))
        (String (byte_of_Z (Z.lor 0x80 (cont r))) ""))
  else
    String (byte_of_Z (Z.lor 0xF0 (Z.shiftr r 18)))
      (String (byte_of_Z (Z.lor 0x80 (cont (Z.shiftr r 12))))
        (String (byte_of_Z (Z.lor 0x80 (cont (Z.shiftr r 6))))
          (String (byte_of_Z (Z.lor 0x80 (cont r))) ""))).

Definition string_of_rune (r : rune) : string :=
  if (r <? 0)%Z || (0x10FFFF <? r)%Z || in_range 0xD800 0xDFFF r
  then encode_valid RuneError
  else encode_valid r.

(* ================================================================= *)
(** ** strings *)

(** [strings.FieldsFunc]: the maximal runs of runes of [s] on which [f] is
    false.  [cur] is the field being read, [None] between fields (the
    [start < 0] of the library's loop). *)
Fixpoint fields_loop (f : rune -> bool) (cur : option string)
         (rs : list (rune * string)) : list string :=
  match rs with
  | [] => match cur with Some w => [w] | None => [] end
  | (r, bs) :: rs' =>
    if f r then
      match cur with
      | Some w => w :: fields_loop f None rs'
      | None => fields_loop f None rs'
      end
    else
      fields_loop f (Some (match cur with Some w => w ++ bs | None => bs end)) rs'
  end.

Definition FieldsFunc (s : string) (f : rune -> bool) : list string :=
  fields_loop f None (range_string s).

(** The function literal [func(r rune) bool { return r == c }]. *)
Definition rune_is (c : rune) : rune -> bool := fun r => (r =? c)%Z.

(** The rune [':'], the default of the package variable [Separator]. *)
Definition colon : rune := 58%Z.

(** [strings.HasPrefix]. *)
Definition HasPrefix (s pre : string) : bool := String.prefix pre s.

(** [strings.Replace (s, old, new, -1)] for a non-empty [old], as at both
    call sites of the package: when [old == new] the library returns [s] as
    it is; otherwise every non-overlapping occurrence of [old], found from
    the left, is replaced.  [skip] counts the bytes of a replaced occurrence
    still to be passed over. *)
Fixpoint replace_from (skip : nat) (old new s : string) : string :=
  match s with
  | EmptyString => EmptyString
  | String c t =>
    match skip with
    | S k => replace_from k old new t
    | O =>
      if HasPrefix s old
      then new ++ replace_from (String.length old - 1) old new t
      else String c (replace_from 0 old new t)
    end
  end.

Definition Replace (s old new : string) : string :=
  if String.eqb old new then s else replace_from 0 old new s.

(* ================================================================= *)
(** ** strconv, encoding/hex, sort *)

(** [strconv.FormatInt (i, 10)]. *)
Definition FormatInt (i : Z) : string := NilZero.string_of_int (Z.to_int i).

Definition hextable : string := "0123456789abcdef".

Definition hexdigit (n : Z) : ascii :=
  match String.get (Z.to_nat n) hextable with
  | Some c => c
  | None => "0"%char
  end.

(** [hex.EncodeToString]: two lower-case digits a byte. *)
Fixpoint EncodeToString (bs : string) : string :=
  match bs with
  | EmptyString => EmptyString
  | String b t =>
    String (hexdigit (Z.shiftr (byteZ b) 4))
      (String (hexdigit (Z.land (byteZ b) 0x0F)) (EncodeToString t))
  end.

(** [sort.Sort] on a slice whose order is total and whose equal elements
    are indistinguishable ([runeSlice], [[]string]): the sorted permutation
    is unique, so the algorithm the library picks does not show.  Here:
    insertion. *)
Section Sort.
Context {A : Type} (leb : A -> A -> bool).

Fixpoint insert (x : A) (l : list A) : list A :=
  match l with
  | [] => [x]
  | y :: l' => if leb x y then x :: l else y :: insert x l'
  end.

Fixpoint Sort (l : list A) : list A :=
  match l with
  | [] => []
  | x :: l' => insert x (Sort l')
  end.
End Sort.

(** [runeSlice.Less]: [s[i] < s[j]]; sorting with it puts the runes in
    ascending order. *)
Definition sort_runes (rs : list rune) : list rune := Sort Z.leb rs.

Definition sort_strings (ss : list string) : list string := Sort String.leb ss.

(* ================================================================= *)
(** ** path/filepath (Unix) *)

(** [filepath.Join] on the elements of a clean path ([clean_dir] for the
    mailbox path, proper names after it): the elements joined by ['/'].
    The call of [Clean] that ends [filepath.Join] changes nothing there. *)
Definition Join (elem : list string) : string := String.concat "/" elem.

(** Index just after the last ['/'] of [path], 0 when there is none. *)
Fixpoint after_last_slash (path : string) : nat :=
  match path with
  | EmptyString => 0
  | String c t =>
    let i := after_last_slash t in
    if (0 <? i)%nat then S i
    else if Ascii.eqb c "/" then 1 else 0
  end.

(** [filepath.Split]: the directory, with its trailing slash, and the
    file. *)
Definition Split (path : string) : string * string :=
  let i := after_last_slash path in (take i path, drop i path).

(** [cleanGlobPath]: the directory of a glob pattern without its trailing
    slash. *)
Definition cleanGlobPath (path : string) : string :=
  if String.eqb path "" then "."
  else if String.eqb path "/" then path
  else take (String.length path - 1) path.

Fixpoint ContainsAny (s chars : string) : bool :=
  match s with
  | EmptyString => false
  | String c t =>
    match String.index 0 (String c "") chars with
    | Some _ => true
    | None => ContainsAny t chars
    end
  end.

Definition backslash : ascii := ascii_of_nat 92.

(** [hasMeta]: whether the path holds one of the characters [*?[\]. *)
Definition hasMeta (path : string) : bool :=
  ContainsAny path (String "*" (String "?" (String "[" (String backslash "")))).

(** [scanChunk], first loop: leading stars. *)
Fixpoint strip_stars (star : bool) (pattern : string) : bool * string :=
  match pattern with
  | String "*" t => strip_stars true t
  | _ => (star, pattern)
  end.

(** [scanChunk], second loop: the index of the first star outside a
    character class; a backslash takes the next byte with it. *)
Fixpoint scan (inrange : bool) (pattern : string) : nat :=
  match pattern with
  | EmptyString => 0
  | String c t =>
    if Ascii.eqb c backslash then
      match t with
      | String _ t' => 2 + scan inrange t'
      | EmptyString => 1
      end
    else if Ascii.eqb c "[" then 1 + scan true t
    else if Ascii.eqb c "]" then 1 + scan false t
    else if Ascii.eqb c "*" then (if inrange then 1 + scan inrange t else 0)
    else 1 + scan inrange t
  end.

Definition scanChunk (pattern : string) : bool * string * string :=
  let (star, p) := strip_stars false pattern in
  let i := scan false p in
  (star, take i p, drop i p).

(** [getEsc]: one, possibly escaped, character of a character class. *)
Definition getEsc (chunk : string) : rune * string * goerror :=
  match chunk with
  | EmptyString => (0%Z, "", Some ErrBadPattern)
  | String c t =>
    if Ascii.eqb c "-" || Ascii.eqb c "]" then (0%Z, "", Some ErrBadPattern)
    else if Ascii.eqb c backslash && String.eqb t "" then (0%Z, "", Some ErrBadPattern)
    else
      let chunk1 := if Ascii.eqb c backslash then t else chunk in
      let (r, n) := DecodeRuneInString chunk1 in
      let err := if (r =? RuneError)%Z && (n =? 1)%nat
                 then Some ErrBadPattern else None in
      let nchunk := drop n chunk1 in
      (r, nchunk, if String.eqb nchunk "" then Some ErrBadPattern else err)
  end.

Definition first_is (s : string) (c : ascii) : bool :=
  match s with
  | String c0 _ => Ascii.eqb c0 c
  | EmptyString => false
  end.

(** [matchChunk], the loop that parses the ranges of a character class and
    tests [r] against them.  Every round takes at least one byte of
    [chunk] or leaves the loop, so [fuel] above the length of [chunk] is
    never used up. *)
Fixpoint class_ranges (fuel : nat) (chunk : string) (r : rune)
         (matched : bool) (nrange : nat) : string * bool * goerror :=
  match fuel with
  | O => ("", false, Some ErrBadPattern)
  | S fuel' =>
    if first_is chunk "]" && (0 <? nrange)%nat then (drop 1 chunk, matched, None)
    else
      let '(lo, chunk1, err) := getEsc chunk in
      match err with
      | Some e => ("", false, Some e)
      | None =>
        let '(hi, chunk2, err2) :=
          if first_is chunk1 "-" then getEsc (drop 1 chunk1)
          else (lo, chunk1, None) in
        match err2 with
        | Some e => ("", false, Some e)
        | None =>
          let matched' := if (lo <=? r)%Z && (r <=? hi)%Z then true else matched in
          class_ranges fuel' chunk2 r matched' (S nrange)
        end
      end
  end.

(** [matchChunk]: whether [chunk] (literals, classes and [?]) matches the
    beginning of [s]; after a failure the rest of [chunk] is still checked
    for being well formed.  Every round takes at least one byte of
    [chunk]. *)
Fixpoint matchChunk_loop (fuel : nat) (chunk s : string) (failed : bool)
  : string * bool * goerror :=
  match fuel with
  | O => ("", false, None)
  | S fuel' =>
    match chunk with
    | EmptyString => if failed then ("", false, None) else (s, true, None)
    | String c ct =>
      let failed := if negb failed && String.eqb s "" then true else failed in
      if Ascii.eqb c "[" then
        let '(r, s1) :=
          if negb failed
          then let (r, n) := DecodeRuneInString s in (r, drop n s)
          else (0%Z, s) in
        let '(negated, chunk2) :=
          if first_is ct "^" then (true, drop 1 ct) else (false, ct) in
        let '(chunk3, matched, err) :=
          class_ranges (S (String.length chunk2)) chunk2 r false 0 in
        match err with
        | Some e => ("", false, Some e)
        | None =>
          matchChunk_loop fuel' chunk3 s1
            (if Bool.eqb matched negated then true else failed)
        end
      else if Ascii.eqb c "?" then
        if negb failed then
          let (_, n) := DecodeRuneInString s in
          matchChunk_loop fuel' ct (drop n s)
            (if first_is s "/" then true else failed)
        else matchChunk_loop fuel' ct s failed
      else if Ascii.eqb c backslash && String.eqb ct "" then
        ("", false, Some ErrBadPattern)
      else
        let chunk1 := if Ascii.eqb c backslash then ct else chunk in
        if negb failed then
          matchChunk_loop fuel' (drop 1 chunk1) (drop 1 s)
            (match chunk1, s with
             | String a _, String b _ => if Ascii.eqb a b then failed else true
             | _, _ => failed
             end)
        else matchChunk_loop fuel' (drop 1 chunk1) s failed
    end
  end.

Definition matchChunk (chunk s : string) : string * bool * goerror :=
  matchChunk_loop (S (String.length chunk)) chunk s false.

(** What the loop of [Match] that skips bytes of the name for a star ends
    with. *)
Inductive star_result : Type :=
| Continue (name : string)
| Fail (e : error)
| NoMatch.

(** [Match], the loop [for i := 0; i < len(name) && name[i] != '/'; i++]:
    the chunk is tried on [name[i+1:]]; [last] says that no pattern is left
    after the chunk. *)
Fixpoint star_loop (chunk : string) (last : bool) (name : string) : star_result :=
  match name with
  | EmptyString => NoMatch
  | String c rest =>
    if Ascii.eqb c "/" then NoMatch
    else
      let '(t, ok, err) := matchChunk chunk rest in
      if ok then
        if last && negb (String.eqb t "") then star_loop chunk last rest
        else Continue t
      else
        match err with
        | Some e => Fail e
        | None => star_loop chunk last rest
        end
  end.

Fixpoint Contains_byte (s : string) (c : ascii) : bool :=
  match s with
  | EmptyString => false
  | String c0 t => Ascii.eqb c0 c || Contains_byte t c
  end.

(** [filepath.Match], the loop it runs before it returns false without
    error: the rest of the pattern is checked for being well formed, chunk
    by chunk. *)
Fixpoint check_rest (fuel : nat) (pattern : string) : goerror :=
  match fuel with
  | O => None
  | S fuel' =>
    if String.eqb pattern "" then None
    else
      let '(_, chunk, rest) := scanChunk pattern in
      let '(_, _, err) := matchChunk chunk "" in
      match err with
      | Some e => Some e
      | None => check_rest fuel' rest
      end
  end.

(** [filepath.Match], one round of its loop a chunk of the pattern; the
    pattern gets shorter every round. *)
Fixpoint Match_loop (fuel : nat) (pattern name : string) : bool * goerror :=
  match fuel with
  | O => (false, None)
  | S fuel' =>
    if String.eqb pattern "" then (String.eqb name "", None)
    else
      let '(star, chunk, rest) := scanChunk pattern in
      if star && String.eqb chunk "" then (negb (Contains_byte name "/"), None)
      else
        let '(t, ok, err) := matchChunk chunk name in
        if ok && (String.eqb t "" || negb (String.eqb rest "")) then
          Match_loop fuel' rest t
        else
          match err with
          | Some e => (false, Some e)
          | None =>
            if star then
              match star_loop chunk (String.eqb rest "") name with
              | Continue t' => Match_loop fuel' rest t'
              | Fail e => (false, Some e)
              | NoMatch => (false, check_rest fuel' rest)
              end
            else (false, check_rest fuel' rest)
          end
  end.

Definition Match (pattern name : string) : bool * goerror :=
  Match_loop (S (String.length pattern)) pattern name.

(* ================================================================= *)
(** ** The file system *)

(** The directories that exist, each with the names of its entries in
    directory order, and the renames the operating system refuses (a file
    that is immutable or owned by somebody else, a name that is too long
    for the file system, an I/O error). *)
Record FS : Type := mkFS {
  dirs : list (string * list string);
  refuses : string -> string -> option Errno
}.

Fixpoint lookup (dir : string) (ds : list (string * list string))
  : option (list string) :=
  match ds with
  | [] => None
  | (p, names) :: ds' => if String.eqb p dir then Some names else lookup dir ds'
  end.

Fixpoint update (dir : string) (f : list string -> list string)
         (ds : list (string * list string)) : list (string * list string) :=
  match ds with
  | [] => []
  | (p, names) :: ds' =>
    if String.eqb p dir then (p, f names) :: ds'
    else (p, names) :: update dir f ds'
  end.

Definition has_name (n : string) (names : list string) : bool :=
  existsb (String.eqb n) names.

Definition remove_name (n : string) (names : list string) : list string :=
  filter (fun m => negb (String.eqb n m)) names.

(** The directory a path lies in, and its last element. *)
Definition dir_of (path : string) : string := cleanGlobPath (fst (Split path)).
Definition base_of (path : string) : string := snd (Split path).

(** [os.Open] of a directory followed by [Readdirnames]: the names in
    directory order, or the error of the open. *)
Definition Readdirnames (fs : FS) (dir : string) : list string * goerror :=
  match lookup dir (dirs fs) with
  | Some names => (names, None)
  | None => ([], Some (PathError "open" dir ENOENT))
  end.

(** [os.Lstat] succeeds. *)
Definition exists_path (fs : FS) (path : string) : bool :=
  match lookup path (dirs fs) with
  | Some _ => true
  | None =>
    match lookup (dir_of path) (dirs fs) with
    | Some names => has_name (base_of path) names
    | None => false
    end
  end.

(** [os.Rename]: the file moves to its new directory and name, taking the
    place of a file already there; the call fails when the operating system
    refuses it, when a directory is missing or when the file is.  The new
    name is put last in the listing of its directory, one of the orders a
    file system may list it in. *)
Definition os_Rename (oldpath newpath : string) (fs : FS) : FS * goerror :=
  let failure e := (fs, Some (LinkError "rename" oldpath newpath e)) in
  match refuses fs oldpath newpath with
  | Some e => failure e
  | None =>
    match lookup (dir_of oldpath) (dirs fs), lookup (dir_of newpath) (dirs fs) with
    | Some onames, Some _ =>
      if has_name (base_of oldpath) onames then
        if String.eqb oldpath newpath then (fs, None)
        else
          let ds1 := update (dir_of oldpath) (remove_name (base_of oldpath)) (dirs fs) in
          let ds2 := update (dir_of newpath)
                       (fun names => (remove_name (base_of newpath) names
                                        ++ [base_of newpath])%list) ds1 in
          (mkFS ds2 (refuses fs), None)
      else failure ENOENT
    | _, _ => failure ENOENT
    end
  end.

(** [glob], its loop over the sorted names of the directory. *)
Fixpoint glob_names (dir pattern : string) (names : list string)
         (m : list string) : list string * goerror :=
  match names with
  | [] => (m, None)
  | n :: rest =>
    let (matched, err) := Match pattern n in
    match err with
    | Some e => (m, Some e)
    | None =>
      glob_names dir pattern rest (if matched then (m ++ [Join [dir; n]])%list else m)
    end
  end.

(** [glob]: the entries of [dir] that match [pattern]; a directory that
    is missing gives no match and no error. *)
Definition glob (fs : FS) (dir pattern : string) (matches : list string)
  : list string * goerror :=
  match lookup dir (dirs fs) with
  | None => (matches, None)
  | Some names => glob_names dir pattern (sort_strings names) matches
  end.

(** [filepath.Glob] for a pattern whose directory part has no
    metacharacter ([literal] mailbox path, key without ['/']): the pattern
    is checked for being well formed, then the directory is listed.  The
    branch of the source that expands metacharacters of the directory part
    is outside the model. *)
Definition Glob (fs : FS) (pattern : string) : list string * goerror :=
  match snd (Match pattern "") with
  | Some e => ([], Some e)
  | None =>
    if negb (hasMeta pattern) then
      (if exists_path fs pattern then [pattern] else [], None)
    else
      let (dir, file) := Split pattern in
      glob fs (cleanGlobPath dir) file []
  end.

(* ================================================================= *)
(** ** Package maildir *)

(** The counter [id] is an [int64]. *)
Definition wrap64 (z : Z) : Z := ((z + 2 ^ 63) mod 2 ^ 64 - 2 ^ 63)%Z.

(** The Go string literals ["\057"] and ["\072"]: in an interpreted string
    literal a backslash followed by three octal digits denotes the one byte
    of that value. *)
Definition lit_057 : string := String (ascii_of_nat (0 * 64 + 5 * 8 + 7)) "".
Definition lit_072 : string := String (ascii_of_nat (0 * 64 + 7 * 8 + 2)) "".

(** What a call of [Key] reads from its surroundings. *)
Record KeyEnv : Type := mkKeyEnv {
  Unix_now : Z;                   (* time.Now().Unix() *)
  Hostname : string * goerror;    (* os.Hostname() *)
  Getpid : Z;                     (* os.Getpid() *)
  ReadFull : string * goerror     (* the 10 bytes of bs after io.ReadFull, and its error *)
}.

Section Maildir.

(** The package variable [Separator]. *)
Variable Separator : rune.

(** A [Dir]. *)
Variable d : string.

(** [Unseen], the body of its loop over [names]. *)
Fixpoint Unseen_loop (names : list string) (keys : list string)
         (err : goerror) (fs : FS) : outcome (list string * goerror * FS) :=
  match names with
  | [] => Returns (keys, err, fs)
  | n :: rest =>
    c <- index_byte n 0 ;;
    if negb (Ascii.eqb c ".") then
      let split := FieldsFunc n (rune_is Separator) in
      k <- index split 0 ;;
      let (fs', err') :=
        os_Rename (Join [d; "new"; n])
                  (Join [d; "cur"; n ++ string_of_rune Separator ++ "2,S"]) fs in
      Unseen_loop rest (keys ++ [k])%list err' fs'
    else Unseen_loop rest keys err fs
  end.

(** [Unseen] moves messages from new to cur and returns their keys. *)
Definition Unseen (fs : FS) : outcome (list string * goerror * FS) :=
  let (names, err) := Readdirnames fs (Join [d; "new"]) in
  match err with
  | Some e => Returns ([], Some e, fs)
  | None => Unseen_loop names [] err fs
  end.

(** [Keys], the body of its loop. *)
Fixpoint Keys_loop (names : list string) (keys : list string)
  : outcome (list string) :=
  match names with
  | [] => Returns keys
  | n :: rest =>
    c <- index_byte n 0 ;;
    if negb (Ascii.eqb c ".") then
      let split := FieldsFunc n (rune_is colon) in
      k <- index split 0 ;;
      Keys_loop rest (keys ++ [k])%list
    else Keys_loop rest keys
  end.

(** [Keys] returns a slice of valid keys to access messages by. *)
Definition Keys (fs : FS) : outcome (list string * goerror) :=
  let (names, err) := Readdirnames fs (Join [d; "cur"]) in
  match err with
  | Some e => Returns ([], Some e)
  | None => keys <- Keys_loop names [] ;; Returns (keys, None)
  end.

(** [Filename] returns the path to the file corresponding to the key. *)
Definition Filename (key : string) (fs : FS) : string * goerror :=
  let (matches, err) := Glob fs (Join [d; "cur"; key ++ "*"]) in
  match err with
  | Some e => ("", Some e)
  | None =>
    let n := List.length matches in
    if negb (n =? 1)%nat then ("", Some (KeyError key n))
    else (nth 0 matches "", None)
  end.

(** [Flags] returns the flags for a message sorted in ascending order. *)
Definition Flags (key : string) (fs : FS) : outcome (list rune * goerror) :=
  let (filename, err) := Filename key fs in
  match err with
  | Some e => Returns ([], Some e)
  | None =>
    let split := FieldsFunc filename (rune_is colon) in
    info <- index split 1 ;;
    if (String.length info <? 2)%nat then Returns ([], Some (FlagError info false))
    else
      c1 <- index_byte info 1 ;;
      if negb (Ascii.eqb c1 ",") then Returns ([], Some (FlagError info false))
      else
        c0 <- index_byte info 0 ;;
        if Ascii.eqb c0 "1" then Returns ([], Some (FlagError info true))
        else if negb (Ascii.eqb c0 "2") then Returns ([], Some (FlagError info false))
        else Returns (sort_runes (runes_of_string (drop 2 info)), None)
  end.

(** [SetInfo] sets the info part of the filename. *)
Definition SetInfo (key info : string) (fs : FS) : FS * goerror :=
  let (filename, err) := Filename key fs in
  match err with
  | Some e => (fs, Some e)
  | None =>
    os_Rename filename
              (Join [d; "cur"; key ++ string_of_rune Separator ++ info]) fs
  end.

End Maildir.

(** [Key] generates a new unique key; [id] is the package counter, whose
    new value is returned with the result. *)
Definition Key (env : KeyEnv) (id : Z) : string * goerror * Z :=
  let key := "" in
  let key := key ++ FormatInt (Unix_now env) in
  let key := key ++ "." in
  let (host, err) := Hostname env in
  if error_neq err err then ("", err, id)
  else
    let host := Replace host "/" lit_057 in
    let host := Replace host ":" lit_072 in
    let key := key ++ host in
    let key := key ++ "." in
    let key := key ++ FormatInt (Getpid env) in
    let key := key ++ FormatInt id in
    let id' := wrap64 (id + 1) in
    let (bs, err) := ReadFull env in
    match err with
    | Some e => ("", Some e, id')
    | None => (key ++ EncodeToString bs, None, id')
    end.

(* ================================================================= *)
(** ** Mailboxes and predicates of the statements *)

(** A file system on which every rename goes through. *)
Definition no_refusal : string -> string -> option Errno := fun _ _ => None.

(** The operating system refuses to rename the file [a] of "new". *)
Definition refuse_a : string -> string -> option Errno :=
  fun oldpath _ => if String.eqb oldpath "Maildir/new/a" then Some EPERM else None.

(** The mailbox of the scenario of the specification: one message in
    cur. *)
Definition fs_scenario : FS :=
  mkFS [("Maildir/new", []); ("Maildir/cur", ["1000.host.1.abcdef:2,S"])]
       no_refusal.

(** Two files share the prefix [key]. *)
Definition fs_prefix : FS :=
  mkFS [("Maildir/new", []); ("Maildir/cur", ["key2"; "key"])] no_refusal.

(** A message that sits in cur under its bare key. *)
Definition fs_bare : FS :=
  mkFS [("Maildir/new", []); ("Maildir/cur", ["k"])] no_refusal.

(** Two messages wait in "new"; cur holds an older message. *)
Definition fs_two_new : FS :=
  mkFS [("Maildir/new", ["a"; "b"]); ("Maildir/cur", ["old:2,S"])] refuse_a.

(** Plain keys [a] and [b] in "new", an empty cur. *)
Definition fs_plain : FS :=
  mkFS [("Maildir/new", ["a"; "b"]); ("Maildir/cur", [])] refuse_a.

(** The separator is [';']. *)
Definition semicolon : rune := 59%Z.

(** One message waits in "new". *)
Definition fs_one_new : FS :=
  mkFS [("Maildir/new", ["k"]); ("Maildir/cur", [])] no_refusal.

(** The same message after [Unseen] with the separator [';']. *)
Definition fs_one_cur : FS :=
  mkFS [("Maildir/new", []); ("Maildir/cur", ["k;2,S"])] no_refusal.

(** The name does not start with a dot. *)
Definition nondot (n : string) : bool :=
  match n with
  | String c _ => negb (Ascii.eqb c ".")
  | EmptyString => false
  end.

(** The key of a name: [split[0]]. *)
Definition key_of (Separator : rune) (n : string) : string :=
  hd "" (FieldsFunc n (rune_is Separator)).

(** The loop of [Unseen] gets through a name: the name is not empty
    ([n[0]] exists) and, unless it starts with a dot, it has a first field
    ([split[0]] exists). *)
Definition passable (Separator : rune) (n : string) : Prop :=
  n <> "" /\ (nondot n = true -> FieldsFunc n (rune_is Separator) <> []).

(** The name a message of "new" gets in cur. *)
Definition moved (Separator : rune) (n : string) : string :=
  n ++ string_of_rune Separator ++ "2,S".

(** A plain key as a name: no leading dot, no ['/'], no separator. *)
Definition plain (Separator : rune) (n : string) : Prop :=
  nondot n = true /\
  Contains_byte n "/" = false /\
  forallb (fun r => negb (rune_is Separator r)) (runes_of_string n) = true.

(** The bytes the runes of a range were decoded from. *)
Fixpoint bytes_of (rs : list (rune * string)) : string :=
  match rs with
  | [] => ""
  | (_, bs) :: rs' => bs ++ bytes_of rs'
  end.

(** No byte of the string is one of [*?[\]. *)
Definition literal (s : string) : bool :=
  negb (Contains_byte s "*" || Contains_byte s "?"
        || Contains_byte s "[" || Contains_byte s backslash).

(* ================================================================= *)
(** ** Error messages, [runeSlice] *)

(** [strconv.Itoa]. *)
Definition Itoa (i : Z) : string := FormatInt i.

(** The method [Error] of [KeyError]. *)
Definition KeyError_Error (Key : string) (N : nat) : string :=
  "maildir: key " ++ Key ++ " matches " ++ Itoa (Z.of_nat N) ++ " files.".

(** The panic of a slice expression [s[low:]] with [low > len(s)]. *)
Inductive slice_panic : Type :=
| SliceBoundsOutOfRange (low len : nat).

(** [s[low:]] on a string. *)
Definition slice_from (s : string) (low : nat) : string + slice_panic :=
  if (low <=? String.length s)%nat then inl (drop low s)
  else inr (SliceBoundsOutOfRange low (String.length s)).

(** The method [Error] of [FlagError]. *)
Definition FlagError_Error (Info : string) (Experimental : bool)
  : string + slice_panic :=
  if Experimental then
    match slice_from Info 2 with
    | inl rest => inl ("maildir: experimental info section encountered: " ++ rest)
    | inr p => inr p
    end
  else inl ("maildir: bad info section encountered: " ++ Info).

(** [s[i] = x] on a slice, for [i] in range. *)
Fixpoint set_nth {A : Type} (i : nat) (x : A) (s : list A) : list A :=
  match s, i with
  | [], _ => []
  | _ :: t, O => x :: t
  | y :: t, S i' => y :: set_nth i' x t
  end.

(** [runeSlice.Len]. *)
Definition runeSlice_Len (s : list rune) : nat := List.length s.

(** [runeSlice.Swap]: [s[i], s[j] = s[j], s[i]]. *)
Definition runeSlice_Swap (s : list rune) (i j : nat) : outcome (list rune) :=
  a <- index s i ;;
  b <- index s j ;;
  Returns (set_nth j a (set_nth i b s)).

(** [runeSlice.Less]: [s[i] < s[j]]. *)
Definition runeSlice_Less (s : list rune) (i j : nat) : outcome bool :=
  a <- index s i ;;
  b <- index s j ;;
  Returns (a <? b)%Z.

(* ================================================================= *)
(** ** What a run of [Unseen] does to the mailbox *)

(** The operating system refuses to move the name [n] of "new" to cur. *)
Definition refused (Separator : rune) (d : string)
           (R : string -> string -> option Errno) (n : string) : bool :=
  match R (Join [d; "new"; n]) (Join [d; "cur"; moved Separator n]) with
  | Some _ => true
  | None => false
  end.

(** The names that [Unseen] leaves in "new": those with a leading dot and
    those whose rename is refused. *)
Definition stays (Separator : rune) (d : string)
           (R : string -> string -> option Errno) (n : string) : bool :=
  negb (nondot n) || refused Separator d R n.

(** The names that [Unseen] moves to cur. *)
Definition goes (Separator : rune) (d : string)
           (R : string -> string -> option Errno) (n : string) : bool :=
  nondot n && negb (refused Separator d R n).

(** The directory cur after the names [arrived] were moved into it, one
    after the other, each taking the place of a file of its name. *)
Definition cur_after (cur0 arrived : list string) : list string :=
  (filter (fun m => negb (has_name m arrived)) cur0 ++ arrived)%list.

(** The value of [err] after the loop of [Unseen] over [names]. *)
Fixpoint Unseen_error (Separator : rune) (d : string)
         (R : string -> string -> option Errno)
         (names : list string) (err : goerror) : goerror :=
  match names with
  | [] => err
  | n :: rest =>
    Unseen_error Separator d R rest
      (if nondot n then
         match R (Join [d; "new"; n]) (Join [d; "cur"; moved Separator n]) with
         | Some e => Some (LinkError "rename" (Join [d; "new"; n])
                                     (Join [d; "cur"; moved Separator n]) e)
         | None => None
         end
       else err)
  end.

(** A name [Unseen] can work on: it is passable and, unless it starts with
    a dot, holds no ['/']. *)
Definition movable (Separator : rune) (n : string) : Prop :=
  passable Separator n /\ (nondot n = true -> Contains_byte n "/" = false).

(** Every rune of the name is the separator. *)
Definition only_separators (Separator : rune) (n : string) : bool :=
  forallb (rune_is Separator) (runes_of_string n).

(* ================================================================= *)
(** ** Clean mailbox paths, mailboxes for [Flags] *)

(** The elements of a path, between its slashes; [cur] is the element
    being read. *)
Fixpoint path_elements (cur : string) (s : string) : list string :=
  match s with
  | EmptyString => [cur]
  | String c t =>
    if Ascii.eqb c "/" then cur :: path_elements "" t
    else path_elements (cur ++ String c "") t
  end.

(** An element that is neither empty nor [.] nor [..]. *)
Definition proper_element (e : string) : bool :=
  negb (String.eqb e "") && negb (String.eqb e ".") && negb (String.eqb e "..").

(** A mailbox path that [filepath.Clean] leaves as it is, so that
    [filepath.Join] extends it by ['/'] and the next element: proper
    elements separated by single slashes, after a leading slash or
    without. *)
Definition clean_dir (d : string) : bool :=
  match path_elements "" d with
  | [] => false
  | first :: rest =>
    ((String.eqb first "" && negb (Nat.eqb (List.length rest) 0))
     || proper_element first)
    && forallb proper_element rest
  end.

(** A name of a directory entry: a proper element without ['/']. *)
Definition valid_name (n : string) : bool :=
  proper_element n && negb (Contains_byte n "/").

(** A mailbox whose path holds a [':']; one message with the flags
    [R] and [S]. *)
Definition fs_colon_path : FS :=
  mkFS [("Mail:box/new", []); ("Mail:box/cur", ["k:2,RS"])] no_refusal.

(** A mailbox kept with the separator [';']; one message with an
    experimental info section. *)
Definition fs_semicolon_experimental : FS :=
  mkFS [("Maildir/new", []); ("Maildir/cur", ["k;1,X"])] no_refusal.

(* ================================================================= *)
(** * Properties *)

(* ================================================================= *)
(** ** Byte strings *)

Lemma append_assoc (a b c : string) : (a ++ b) ++ c = a ++ (b ++ c).
Proof. induction a as [|x a IH]; simpl; [reflexivity | now rewrite IH]. Qed.

Lemma append_empty_r (a : string) : a ++ "" = a.
Proof. induction a as [|x a IH]; simpl; [reflexivity | now rewrite IH]. Qed.

Lemma length_append (a b : string) :
  String.length (a ++ b) = String.length a + String.length b.
Proof. induction a as [|x a IH]; simpl; [reflexivity | now rewrite IH]. Qed.

(** Appends, associated to the right. *)
Ltac norm_append := repeat (first [rewrite !append_assoc | progress simpl]).

Lemma length_drop_le (n : nat) (s : string) :
  (String.length (drop n s) <= String.length s)%nat.
Proof.
  revert s. induction n as [|n IH]; intros [|c t]; simpl; try lia.
  specialize (IH t). lia.
Qed.

Lemma length_drop_lt (n : nat) (s : string) :
  (1 <= n)%nat -> s <> "" -> (String.length (drop n s) < String.length s)%nat.
Proof.
  intros Hn Hs. destruct n as [|n]; [lia|].
  destruct s as [|c t]; [contradiction|]. simpl.
  pose proof (length_drop_le n t). lia.
Qed.

Lemma take_append (a b : string) : take (String.length a) (a ++ b) = a.
Proof. induction a as [|c a IH]; simpl; [now destruct b | now rewrite IH]. Qed.

Lemma drop_append (a b : string) : drop (String.length a) (a ++ b) = b.
Proof. induction a as [|c a IH]; simpl; [reflexivity | exact IH]. Qed.

Lemma take_drop (n : nat) (s : string) : take n s ++ drop n s = s.
Proof.
  revert s. induction n as [|n IH]; intros [|c t]; simpl; try reflexivity.
  now rewrite IH.
Qed.

Lemma append_inj_l (a b c : string) : a ++ b = a ++ c -> b = c.
Proof. induction a as [|x a IH]; simpl; [trivial | intros [= H]; auto]. Qed.

Lemma append_inj_r (a b c : string) : a ++ c = b ++ c -> a = b.
Proof.
  revert b. induction a as [|x a IH]; intros [|y b] H; simpl in H.
  - reflexivity.
  - exfalso. apply (f_equal String.length) in H. simpl in H.
    rewrite length_append in H. lia.
  - exfalso. apply (f_equal String.length) in H. simpl in H.
    rewrite length_append in H. lia.
  - injection H as -> H. f_equal. now apply IH.
Qed.

Lemma Contains_byte_append (a b : string) (c : ascii) :
  Contains_byte (a ++ b) c = Contains_byte a c || Contains_byte b c.
Proof.
  induction a as [|x a IH]; simpl; [reflexivity|]. now rewrite IH, orb_assoc.
Qed.

(* ================================================================= *)
(** ** The library functions on examples *)

Example FieldsFunc_cur :
  FieldsFunc "1000.host.1.abcdef:2,S" (rune_is colon)
  = ["1000.host.1.abcdef"; "2,S"].
Proof. reflexivity. Qed.

Example FieldsFunc_drops_empty :
  FieldsFunc ":a::b:" (rune_is colon) = ["a"; "b"].
Proof. reflexivity. Qed.

Example Replace_all : Replace "a/b//c" "/" "--" = "a--b----c".
Proof. reflexivity. Qed.

Example FormatInt_examples :
  FormatInt 10000 = "10000" /\ FormatInt 0 = "0" /\ FormatInt (-42) = "-42".
Proof. repeat split. Qed.

Example Match_examples :
  Match "key*" "key:2,S" = (true, None) /\
  Match "key*" "key2:2,S" = (true, None) /\
  Match "key*" "ke" = (false, None) /\
  Match "a?c*" "abcd" = (true, None) /\
  Match "[a-c]x" "bx" = (true, None) /\
  Match "[^a-c]x" "bx" = (false, None) /\
  Match "*x*z" "axyz" = (true, None) /\
  Match "*x*z" "axyzw" = (false, None) /\
  Match "[*" "x" = (false, Some ErrBadPattern) /\
  Match "[*" "" = (false, Some ErrBadPattern) /\
  Match "a*[*" "" = (false, Some ErrBadPattern) /\
  Match "a*b" "ax" = (false, None).
Proof. repeat split. Qed.

(* ================================================================= *)
(** ** Library facts *)

Lemma error_neq_same (e : goerror) : error_neq e e = false.
Proof.
  destruct e as [e|]; simpl; [|reflexivity].
  destruct (error_eq_dec e e); congruence.
Qed.

Lemma lit_057_slash : lit_057 = "/".
Proof. reflexivity. Qed.

Lemma lit_072_colon : lit_072 = ":".
Proof. reflexivity. Qed.

Lemma Replace_same (s old : string) : Replace s old old = s.
Proof. unfold Replace. now rewrite String.eqb_refl. Qed.

Section SortFacts.
Context {A : Type} (leb : A -> A -> bool) (le : A -> A -> Prop).
Hypothesis leb_le : forall x y, leb x y = true -> le x y.
Hypothesis leb_total : forall x y, leb x y = false -> le y x.

Lemma insert_perm (x : A) (l : list A) : Permutation (x :: l) (insert leb x l).
Proof.
  induction l as [|y l IH]; simpl.
  - apply Permutation_refl.
  - destruct (leb x y).
    + apply Permutation_refl.
    + eapply perm_trans; [apply perm_swap|]. now apply perm_skip.
Qed.

Lemma Sort_perm (l : list A) : Permutation l (Sort leb l).
Proof.
  induction l as [|x l IH]; simpl.
  - apply perm_nil.
  - eapply perm_trans; [apply perm_skip, IH | apply insert_perm].
Qed.

Lemma insert_hd (x a : A) (l : list A) :
  HdRel le a l -> le a x -> HdRel le a (insert leb x l).
Proof.
  intros Hl Hax. destruct l as [|y l]; simpl.
  - now constructor.
  - destruct (leb x y); constructor; trivial. now inversion Hl.
Qed.

Lemma insert_sorted (x : A) (l : list A) :
  Sorted le l -> Sorted le (insert leb x l).
Proof.
  induction 1 as [|y l Hs IH Hhd]; simpl.
  - repeat constructor.
  - destruct (leb x y) eqn:E.
    + constructor; [now constructor | constructor; auto].
    + constructor; [exact IH | apply insert_hd; auto].
Qed.

Lemma Sort_sorted (l : list A) : Sorted le (Sort leb l).
Proof.
  induction l as [|x l IH]; simpl; [constructor | now apply insert_sorted].
Qed.
End SortFacts.

Lemma sort_runes_sorted (rs : list rune) : Sorted Z.le (sort_runes rs).
Proof.
  apply Sort_sorted; intros x y H.
  - now apply Z.leb_le.
  - apply Z.leb_gt in H. lia.
Qed.

Lemma sort_runes_perm (rs : list rune) : Permutation rs (sort_runes rs).
Proof. apply Sort_perm. Qed.

(* ================================================================= *)
(** ** Runes and fields *)

(** A rune decoded from a non-empty string is one to four bytes wide. *)
Lemma DecodeRuneInString_width (s : string) :
  s <> "" ->
  (1 <= snd (DecodeRuneInString s) <= 4)%nat.
Proof.
  destruct s as [|c0 t]; [contradiction|]. intros _.
  unfold DecodeRuneInString.
  repeat match goal with
         | |- context [if ?b then _ else _] => destruct b
         | |- context [match ?x with EmptyString => _ | String _ _ => _ end] =>
           destruct x
         end; simpl; lia.
Qed.

Lemma bytes_of_range_from (s : string) :
  forall k, bytes_of (range_from k s) = drop k s.
Proof.
  induction s as [|c t IH]; intros k.
  - now destruct k.
  - destruct k as [|k]; [|apply IH].
    cbn [range_from].
    assert (String c t <> "") as Hne by discriminate.
    pose proof (DecodeRuneInString_width _ Hne) as Hw.
    destruct (DecodeRuneInString (String c t)) as [r n]. simpl snd in Hw.
    cbn [bytes_of]. rewrite IH.
    destruct n as [|n]; [lia|].
    replace (S n - 1) with n by lia.
    change (drop n t) with (drop (S n) (String c t)).
    apply take_drop.
Qed.

Lemma bytes_of_range_string (s : string) : bytes_of (range_string s) = s.
Proof. apply bytes_of_range_from. Qed.

Lemma forallb_map_fst {A B : Type} (p : A -> bool) (l : list (A * B)) :
  forallb p (map fst l) = forallb (fun x => p (fst x)) l.
Proof. induction l as [|x l IH]; simpl; [reflexivity | now rewrite IH]. Qed.

Lemma fields_loop_one_field (f : rune -> bool) (rs : list (rune * string)) :
  forallb (fun p => negb (f (fst p))) rs = true ->
  forall cur, (List.length (fields_loop f cur rs) <= 1)%nat.
Proof.
  induction rs as [|[r bs] rs IH]; simpl; intros H cur.
  - destruct cur; simpl; lia.
  - apply andb_prop in H as [Hr Hrs]. simpl in Hr.
    apply negb_true_iff in Hr. rewrite Hr. now apply IH.
Qed.

(** A string without the separating rune has at most one field. *)
Lemma FieldsFunc_one_field (s : string) (f : rune -> bool) :
  forallb (fun r => negb (f r)) (runes_of_string s) = true ->
  (List.length (FieldsFunc s f) <= 1)%nat.
Proof.
  intros H. apply fields_loop_one_field.
  unfold runes_of_string in H. now rewrite forallb_map_fst in H.
Qed.

Lemma fields_loop_no_separator (f : rune -> bool) (rs : list (rune * string)) :
  forallb (fun p => negb (f (fst p))) rs = true ->
  forall w, fields_loop f (Some w) rs = [w ++ bytes_of rs].
Proof.
  induction rs as [|[r bs] rs IH]; simpl; intros H w.
  - now rewrite append_empty_r.
  - apply andb_prop in H as [Hr Hrs]. simpl in Hr.
    apply negb_true_iff in Hr. rewrite Hr, (IH Hrs). now rewrite append_assoc.
Qed.

(** A name without the separator is its own key. *)
Lemma FieldsFunc_no_separator (s : string) (f : rune -> bool) :
  s <> "" ->
  forallb (fun r => negb (f r)) (runes_of_string s) = true ->
  FieldsFunc s f = [s].
Proof.
  intros Hne H. unfold runes_of_string in H. rewrite forallb_map_fst in H.
  unfold FieldsFunc. pose proof (bytes_of_range_string s) as Hb.
  destruct (range_string s) as [|[r bs] rs].
  - simpl in Hb. congruence.
  - simpl in H. apply andb_prop in H as [Hr Hrs]. simpl in Hr.
    apply negb_true_iff in Hr. simpl. rewrite Hr.
    rewrite (fields_loop_no_separator f rs Hrs). now simpl in Hb; rewrite Hb.
Qed.

(* ================================================================= *)
(** ** Fields of a name with one separator *)

Lemma in_range_ascii (lo hi b : Z) :
  (b < 0x80)%Z -> (0x80 <= lo)%Z -> in_range lo hi b = false.
Proof.
  intros Hb Hlo. unfold in_range.
  destruct (Z.leb_spec lo b); [lia | reflexivity].
Qed.

(** An ASCII byte after a string does not change how the first rune of the
    string decodes: it cannot continue a sequence. *)
Lemma DecodeRuneInString_before_ascii (x c : ascii) (t b : string) :
  (byteZ c < 0x80)%Z ->
  DecodeRuneInString (String x (t ++ String c b)) = DecodeRuneInString (String x t).
Proof.
  intros Hc. unfold DecodeRuneInString.
  destruct (byteZ x <? 0x80)%Z; [reflexivity|].
  destruct ((byteZ x <? 0xC2)%Z || (0xF4 <? byteZ x)%Z); [reflexivity|].
  assert (forall lo hi, (0x80 <= lo)%Z -> in_range lo hi (byteZ c) = false) as Hr
    by (intros; now apply in_range_ascii).
  destruct (byteZ x <? 0xE0)%Z.
  { destruct t as [|c1 t]; simpl; [now rewrite Hr by lia | reflexivity]. }
  destruct (byteZ x <? 0xF0)%Z.
  { destruct (byteZ x =? 0xE0)%Z, (byteZ x =? 0xED)%Z;
      (destruct t as [|c1 [|c2 t]]; simpl;
       [ destruct b; [reflexivity | now rewrite Hr by lia]
       | rewrite (Hr 0x80%Z) by lia; now rewrite andb_false_r
       | reflexivity ]). }
  destruct (byteZ x =? 0xF0)%Z, (byteZ x =? 0xF4)%Z;
    (destruct t as [|c1 [|c2 [|c3 t]]]; simpl;
     [ destruct b as [|? [|? ?]]; try reflexivity; now rewrite Hr by lia
     | destruct b; [reflexivity|];
       rewrite (Hr 0x80%Z) by lia; now rewrite andb_false_r
     | rewrite (Hr 0x80%Z) by lia; now rewrite andb_false_r
     | reflexivity ]).
Qed.

(** A rune is not wider than the string it is decoded from. *)
Lemma DecodeRuneInString_width_le (s : string) :
  (snd (DecodeRuneInString s) <= String.length s)%nat.
Proof.
  unfold DecodeRuneInString. destruct s as [|c0 t]; [simpl; lia|].
  repeat match goal with
         | |- context [if ?b then _ else _] => destruct b
         | |- context [match ?x with EmptyString => _ | String _ _ => _ end] =>
           destruct x
         end; simpl; lia.
Qed.

Lemma take_append_le (n : nat) (a b : string) :
  (n <= String.length a)%nat -> take n (a ++ b) = take n a.
Proof.
  revert a. induction n as [|n IH]; intros [|c a] H; simpl in *; try reflexivity.
  - lia.
  - rewrite IH; [reflexivity | lia].
Qed.

(** Ranging over a string followed by an ASCII byte: the runes of the
    string, then those of the rest. *)
Lemma range_from_before_ascii (c : ascii) (b : string) :
  (byteZ c < 0x80)%Z ->
  forall a k, (k <= String.length a)%nat ->
  range_from k (a ++ String c b)
  = (range_from k a ++ range_string (String c b))%list.
Proof.
  intros Hc. induction a as [|x t IH]; intros k Hk.
  - simpl in Hk. replace k with 0 by lia. reflexivity.
  - destruct k as [|k].
    + change (String x t ++ String c b) with (String x (t ++ String c b)).
      cbn [range_from].
      rewrite (DecodeRuneInString_before_ascii x c t b Hc).
      pose proof (DecodeRuneInString_width_le (String x t)) as Hw.
      destruct (DecodeRuneInString (String x t)) as [r n]. simpl snd in Hw.
      change (String x (t ++ String c b)) with (String x t ++ String c b).
      rewrite (take_append_le n _ _ Hw).
      rewrite IH by (simpl in Hw; lia). reflexivity.
    + simpl. apply IH. simpl in Hk. lia.
Qed.

Lemma range_string_ascii (c : ascii) (b : string) :
  (byteZ c < 0x80)%Z ->
  range_string (String c b) = (byteZ c, String c "") :: range_string b.
Proof.
  intros Hc. unfold range_string. cbn [range_from].
  unfold DecodeRuneInString.
  destruct (Z.ltb_spec (byteZ c) 0x80); [|lia].
  simpl. now destruct b.
Qed.

Lemma fields_loop_until_separator (f : rune -> bool) (r : rune) (bs : string)
      (rs rest : list (rune * string)) :
  forallb (fun p => negb (f (fst p))) rs = true ->
  f r = true ->
  forall w,
  fields_loop f (Some w) (rs ++ (r, bs) :: rest)
  = (w ++ bytes_of rs) :: fields_loop f None rest.
Proof.
  intros H Hr. induction rs as [|[r0 bs0] rs IH]; intros w; simpl.
  - now rewrite Hr, append_empty_r.
  - simpl in H. apply andb_prop in H as [H0 Hrs]. simpl in H0.
    apply negb_true_iff in H0. rewrite H0, (IH Hrs). now rewrite append_assoc.
Qed.

(** A name made of a key, a [':'] and an info section, neither holding a
    [':'], splits into the two. *)
Lemma FieldsFunc_key_info (a b : string) :
  a <> "" -> b <> "" ->
  forallb (fun r => negb (rune_is colon r)) (runes_of_string a) = true ->
  forallb (fun r => negb (rune_is colon r)) (runes_of_string b) = true ->
  FieldsFunc (a ++ ":" ++ b) (rune_is colon) = [a; b].
Proof.
  intros Ha Hb Hna Hnb. unfold FieldsFunc, range_string.
  assert (byteZ ":" < 0x80)%Z as Hc by reflexivity.
  change (":" ++ b) with (String ":" b).
  rewrite (range_from_before_ascii ":" b Hc a 0) by lia.
  rewrite (range_string_ascii ":" b Hc).
  fold (range_string a).
  unfold runes_of_string in Hna. rewrite forallb_map_fst in Hna.
  pose proof (bytes_of_range_string a) as Hbytes.
  destruct (range_string a) as [|[r bs] rs].
  - simpl in Hbytes. congruence.
  - simpl in Hna. apply andb_prop in Hna as [Hr Hrs]. simpl in Hr.
    apply negb_true_iff in Hr. simpl app. cbn [fields_loop]. rewrite Hr.
    rewrite (fields_loop_until_separator (rune_is colon) _ _ rs _ Hrs)
      by reflexivity.
    simpl in Hbytes. rewrite Hbytes.
    fold (FieldsFunc b (rune_is colon)).
    now rewrite (FieldsFunc_no_separator b _ Hb Hnb).
Qed.

(* ================================================================= *)
(** ** The fuel of [Match] is never used up *)

Lemma first_is_nonempty (s : string) (c : ascii) : first_is s c = true -> s <> "".
Proof. destruct s; [discriminate | discriminate]. Qed.

(** [getEsc] without error leaves a shorter chunk. *)
Lemma getEsc_shorter (chunk nchunk : string) (r : rune) :
  getEsc chunk = (r, nchunk, None) ->
  (String.length nchunk < String.length chunk)%nat.
Proof.
  unfold getEsc. destruct chunk as [|c t]; [discriminate|].
  destruct (Ascii.eqb c "-" || Ascii.eqb c "]"); [discriminate|].
  destruct (Ascii.eqb c backslash) eqn:Hb; simpl.
  - destruct (String.eqb_spec t ""); [discriminate|].
    pose proof (DecodeRuneInString_width t n) as Hw.
    destruct (DecodeRuneInString t) as [r0 w]. simpl in Hw.
    destruct (String.eqb (drop w t) ""); [discriminate|].
    intros H. inversion H; subst.
    pose proof (length_drop_lt w t (proj1 Hw) n). lia.
  - assert (String c t <> "") as Hne by discriminate.
    pose proof (DecodeRuneInString_width _ Hne) as Hw.
    destruct (DecodeRuneInString (String c t)) as [r0 w]. simpl in Hw.
    destruct (String.eqb (drop w (String c t)) ""); [discriminate|].
    intros H. inversion H; subst.
    exact (length_drop_lt w _ (proj1 Hw) Hne).
Qed.

(** One round of the loop over the ranges. *)
Lemma class_ranges_step (fuel : nat) (chunk : string) (r : rune)
      (matched : bool) (nrange : nat) :
  class_ranges (S fuel) chunk r matched nrange =
  if first_is chunk "]" && (0 <? nrange)%nat then (drop 1 chunk, matched, None)
  else
    let '(lo, chunk1, err) := getEsc chunk in
    match err with
    | Some e => ("", false, Some e)
    | None =>
      let '(hi, chunk2, err2) :=
        if first_is chunk1 "-" then getEsc (drop 1 chunk1)
        else (lo, chunk1, None) in
      match err2 with
      | Some e => ("", false, Some e)
      | None =>
        let matched' := if (lo <=? r)%Z && (r <=? hi)%Z then true else matched in
        class_ranges fuel chunk2 r matched' (S nrange)
      end
    end.
Proof. reflexivity. Qed.

Lemma class_ranges_fuel (fuel1 : nat) :
  forall fuel2 chunk r matched nrange,
  (String.length chunk < fuel1)%nat -> (String.length chunk < fuel2)%nat ->
  class_ranges fuel1 chunk r matched nrange = class_ranges fuel2 chunk r matched nrange.
Proof.
  induction fuel1 as [|fuel1 IH]; intros fuel2 chunk r matched nrange H1 H2; [lia|].
  destruct fuel2 as [|fuel2]; [lia|].
  rewrite !class_ranges_step.
  destruct (first_is chunk "]" && (0 <? nrange)%nat); [reflexivity|].
  destruct (getEsc chunk) as [[lo chunk1] [e|]] eqn:E1; [reflexivity|].
  apply getEsc_shorter in E1.
  destruct (first_is chunk1 "-") eqn:Hd.
  - destruct (getEsc (drop 1 chunk1)) as [[hi chunk2] [e|]] eqn:E2; [reflexivity|].
    apply getEsc_shorter in E2. pose proof (length_drop_le 1 chunk1).
    apply IH; lia.
  - apply IH; lia.
Qed.

(** The loop over the ranges, when it ends without error, has taken at
    least one byte. *)
Lemma class_ranges_shorter (fuel : nat) :
  forall chunk r matched nrange chunk' matched',
  class_ranges fuel chunk r matched nrange = (chunk', matched', None) ->
  (String.length chunk' < String.length chunk)%nat.
Proof.
  induction fuel as [|fuel IH]; intros chunk r matched nrange chunk' matched';
    [discriminate|].
  rewrite class_ranges_step.
  destruct (first_is chunk "]" && (0 <? nrange)%nat) eqn:Hb.
  - intros [= <- _]. apply andb_prop in Hb as [Hb _].
    apply (length_drop_lt 1 chunk); [lia | eapply first_is_nonempty; eassumption].
  - destruct (getEsc chunk) as [[lo chunk1] [e|]] eqn:E1; [discriminate|].
    apply getEsc_shorter in E1.
    destruct (first_is chunk1 "-").
    + destruct (getEsc (drop 1 chunk1)) as [[hi chunk2] [e|]] eqn:E2; [discriminate|].
      apply getEsc_shorter in E2. pose proof (length_drop_le 1 chunk1) as Hd.
      intros Hr. apply IH in Hr. lia.
    + intros Hr. apply IH in Hr. lia.
Qed.

Lemma matchChunk_loop_fuel (fuel1 : nat) :
  forall fuel2 chunk s failed,
  (String.length chunk < fuel1)%nat -> (String.length chunk < fuel2)%nat ->
  matchChunk_loop fuel1 chunk s failed = matchChunk_loop fuel2 chunk s failed.
Proof.
  induction fuel1 as [|fuel1 IH]; intros fuel2 chunk s failed H1 H2; [lia|].
  destruct fuel2 as [|fuel2]; [lia|].
  destruct chunk as [|c ct]; [reflexivity|].
  simpl String.length in H1, H2.
  cbn [matchChunk_loop].
  set (failed' := if negb failed && String.eqb s "" then true else failed).
  destruct (Ascii.eqb c "[").
  - destruct (if negb failed'
              then let (r, n) := DecodeRuneInString s in (r, drop n s)
              else (0%Z, s)) as [r s1].
    assert (String.length (if first_is ct "^" then drop 1 ct else ct)
            <= String.length ct)%nat as Hneg.
    { destruct (first_is ct "^"); [apply length_drop_le | lia]. }
    destruct (first_is ct "^");
      match goal with
      | |- context [class_ranges ?f ?c ?r ?m ?n] =>
        destruct (class_ranges f c r m n) as [[chunk3 matched] [e|]] eqn:E
      end; try reflexivity;
      apply class_ranges_shorter in E; apply IH; lia.
  - destruct (Ascii.eqb c "?").
    + destruct (negb failed').
      * destruct (DecodeRuneInString s) as [r n]. apply IH; lia.
      * apply IH; lia.
    + destruct (Ascii.eqb c backslash && String.eqb ct ""); [reflexivity|].
      assert (String.length (drop 1 (if Ascii.eqb c backslash then ct else String c ct))
              <= String.length ct)%nat as Hd.
      { destruct (Ascii.eqb c backslash); [apply length_drop_le | simpl; lia]. }
      destruct (negb failed'); apply IH; lia.
Qed.

(** [matchChunk] is the loop with any fuel above the length of the
    chunk. *)
Lemma matchChunk_fuel (fuel : nat) (chunk s : string) :
  (String.length chunk < fuel)%nat ->
  matchChunk_loop fuel chunk s false = matchChunk chunk s.
Proof. intros H. apply matchChunk_loop_fuel; [exact H | lia]. Qed.

Lemma strip_stars_spec (pattern : string) :
  forall star,
  first_is (snd (strip_stars star pattern)) "*" = false /\
  (String.length (snd (strip_stars star pattern)) <= String.length pattern)%nat.
Proof.
  induction pattern as [|c t IH]; intros star.
  - simpl. split; [reflexivity | lia].
  - destruct (Ascii.eqb_spec c "*") as [->|Hc].
    + simpl. destruct (IH true) as [Hf Hle]. split; [exact Hf | lia].
    + assert (strip_stars star (String c t) = (star, String c t)) as ->.
      { destruct c as [[] [] [] [] [] [] [] []]; try reflexivity.
        contradiction Hc; reflexivity. }
      simpl. split; [now apply Ascii.eqb_neq | lia].
Qed.

Lemma scan_positive (inrange : bool) (p : string) :
  p <> "" -> first_is p "*" = false -> (1 <= scan inrange p)%nat.
Proof.
  destruct p as [|c t]; [contradiction|]. intros _ Hc. simpl in Hc. simpl.
  destruct (Ascii.eqb c backslash); [destruct t; lia|].
  destruct (Ascii.eqb c "["); [lia|].
  destruct (Ascii.eqb c "]"); [lia|].
  rewrite Hc. lia.
Qed.

(** [scanChunk] leaves a shorter pattern. *)
Lemma scanChunk_shorter (pattern : string) :
  pattern <> "" ->
  (String.length (snd (scanChunk pattern)) < String.length pattern)%nat.
Proof.
  intros Hne. unfold scanChunk.
  destruct (strip_stars_spec pattern false) as [Hstar Hle].
  destruct (strip_stars false pattern) as [star p]. simpl in *.
  destruct p as [|c t].
  - simpl. destruct pattern; [contradiction | simpl; lia].
  - assert (String c t <> "") as Hp by discriminate.
    pose proof (scan_positive false _ Hp Hstar) as Hpos.
    pose proof (length_drop_lt _ _ Hpos Hp). lia.
Qed.

Lemma check_rest_fuel (fuel1 : nat) :
  forall fuel2 pattern,
  (String.length pattern < fuel1)%nat -> (String.length pattern < fuel2)%nat ->
  check_rest fuel1 pattern = check_rest fuel2 pattern.
Proof.
  induction fuel1 as [|fuel1 IH]; intros fuel2 pattern H1 H2; [lia|].
  destruct fuel2 as [|fuel2]; [lia|].
  cbn [check_rest].
  destruct (String.eqb_spec pattern "") as [|Hne]; [reflexivity|].
  pose proof (scanChunk_shorter pattern Hne) as Hs.
  destruct (scanChunk pattern) as [[star chunk] rest]. simpl in Hs.
  destruct (matchChunk chunk "") as [[t ok] [e|]]; [reflexivity|].
  apply IH; lia.
Qed.

Lemma Match_loop_fuel (fuel1 : nat) :
  forall fuel2 pattern name,
  (String.length pattern < fuel1)%nat -> (String.length pattern < fuel2)%nat ->
  Match_loop fuel1 pattern name = Match_loop fuel2 pattern name.
Proof.
  induction fuel1 as [|fuel1 IH]; intros fuel2 pattern name H1 H2; [lia|].
  destruct fuel2 as [|fuel2]; [lia|].
  cbn [Match_loop].
  destruct (String.eqb_spec pattern "") as [|Hne]; [reflexivity|].
  pose proof (scanChunk_shorter pattern Hne) as Hs.
  destruct (scanChunk pattern) as [[star chunk] rest]. simpl in Hs.
  destruct (star && String.eqb chunk ""); [reflexivity|].
  assert (check_rest fuel1 rest = check_rest fuel2 rest) as Hc
    by (apply check_rest_fuel; lia).
  destruct (matchChunk chunk name) as [[t ok] err].
  destruct (ok && (String.eqb t "" || negb (String.eqb rest ""))).
  - apply IH; lia.
  - destruct err; [reflexivity|].
    destruct star; [|now rewrite Hc].
    destruct (star_loop chunk (String.eqb rest "") name);
      try reflexivity; [apply IH; lia | now rewrite Hc].
Qed.

(** [Match] is its loop with any fuel above the length of the pattern:
    the result that stands for used-up fuel is never returned. *)
Lemma Match_fuel (fuel : nat) (pattern name : string) :
  (String.length pattern < fuel)%nat ->
  Match_loop fuel pattern name = Match pattern name.
Proof. intros H. apply Match_loop_fuel; [exact H | lia]. Qed.

(* ================================================================= *)
(** ** Paths *)

Lemma after_last_slash_none (s : string) :
  Contains_byte s "/" = false -> after_last_slash s = 0.
Proof.
  induction s as [|c t IH]; simpl; [reflexivity|].
  intros H. apply orb_false_elim in H as [Hc Ht].
  rewrite (IH Ht), Hc. reflexivity.
Qed.

Lemma after_last_slash_append (dir file : string) :
  Contains_byte file "/" = false ->
  after_last_slash (dir ++ "/" ++ file) = S (String.length dir).
Proof.
  intros H. induction dir as [|c dir IH]; simpl.
  - now rewrite (after_last_slash_none file H).
  - simpl in IH. now rewrite IH.
Qed.

(** [filepath.Split] of a directory joined with a name. *)
Lemma Split_append (dir file : string) :
  Contains_byte file "/" = false ->
  Split (dir ++ "/" ++ file) = (dir ++ "/", file).
Proof.
  intros H. unfold Split. rewrite (after_last_slash_append dir file H).
  replace (S (String.length dir)) with (String.length (dir ++ "/"))
    by (rewrite length_append; simpl; lia).
  rewrite <- (append_assoc dir "/" file).
  now rewrite take_append, drop_append.
Qed.

Lemma cleanGlobPath_slash (dir : string) :
  dir <> "" -> cleanGlobPath (dir ++ "/") = dir.
Proof.
  intros Hne. unfold cleanGlobPath.
  destruct dir as [|c t]; [contradiction|].
  destruct (String.eqb_spec (String c t ++ "/") "") as [E|_]; [discriminate|].
  destruct (String.eqb_spec (String c t ++ "/") "/") as [E|_].
  - simpl in E. injection E as _ E. destruct t; discriminate.
  - rewrite length_append. simpl String.length.
    replace (S (String.length t) + 1 - 1) with (String.length (String c t))
      by (simpl; lia).
    apply take_append.
Qed.

Lemma dir_of_append (dir file : string) :
  dir <> "" -> Contains_byte file "/" = false ->
  dir_of (dir ++ "/" ++ file) = dir.
Proof.
  intros Hne H. unfold dir_of. rewrite (Split_append dir file H). simpl fst.
  now apply cleanGlobPath_slash.
Qed.

Lemma base_of_append (dir file : string) :
  Contains_byte file "/" = false ->
  base_of (dir ++ "/" ++ file) = file.
Proof. intros H. unfold base_of. now rewrite (Split_append dir file H). Qed.

(** [filepath.Join] of a mailbox, one of its directories and a name. *)
Lemma Join_3 (d sub n : string) : Join [d; sub; n] = Join [d; sub] ++ "/" ++ n.
Proof. unfold Join. simpl. now rewrite !append_assoc. Qed.

Lemma Join_2_nonempty (d sub : string) : Join [d; sub] <> "".
Proof. unfold Join. simpl. destruct d; discriminate. Qed.

Lemma hasMeta_star (a b : string) : hasMeta (a ++ String "*" b) = true.
Proof.
  unfold hasMeta. induction a as [|c a IH].
  - reflexivity.
  - simpl append. cbn [ContainsAny].
    destruct (String.index 0 (String c "") _); [reflexivity | exact IH].
Qed.

(* ================================================================= *)
(** ** Glob *)

(** Without an error of [Match], the loop of [glob] keeps the names that
    match, in their order. *)
Lemma glob_names_filter (dir pattern : string) (names : list string) :
  Forall (fun n => snd (Match pattern n) = None) names ->
  forall m,
  glob_names dir pattern names m
  = ((m ++ map (fun n => Join [dir; n])
               (filter (fun n => fst (Match pattern n)) names))%list, None).
Proof.
  induction 1 as [|n names Hn _ IH]; intros m; simpl.
  - now rewrite app_nil_r.
  - destruct (Match pattern n) as [matched err]. simpl in Hn. subst err.
    simpl. rewrite IH. destruct matched; simpl; [|reflexivity].
    now rewrite <- app_assoc.
Qed.

(** For a key without ['/'], the glob of [Filename] is the check of the
    pattern followed by the listing of cur. *)
Lemma Glob_in_cur (d key : string) (fs : FS) :
  Contains_byte key "/" = false ->
  Glob fs (Join [d; "cur"; key ++ "*"])
  = match snd (Match (Join [d; "cur"; key ++ "*"]) "") with
    | Some e => ([], Some e)
    | None => glob fs (Join [d; "cur"]) (key ++ "*") []
    end.
Proof.
  intros Hkey. unfold Glob.
  destruct (snd (Match (Join [d; "cur"; key ++ "*"]) "")); [reflexivity|].
  assert (Contains_byte (key ++ "*") "/" = false) as Hfile.
  { rewrite Contains_byte_append, Hkey. reflexivity. }
  rewrite Join_3.
  replace (hasMeta (Join [d; "cur"] ++ "/" ++ key ++ "*")) with true.
  - simpl negb. cbv iota. rewrite (Split_append _ _ Hfile).
    rewrite cleanGlobPath_slash by apply Join_2_nonempty. reflexivity.
  - symmetry. rewrite <- !append_assoc. apply hasMeta_star.
Qed.

(* ================================================================= *)
(** ** Patterns without metacharacters *)

Lemma literal_cons (c : ascii) (t : string) :
  literal (String c t) = true ->
  Ascii.eqb c "*" = false /\ Ascii.eqb c "?" = false /\
  Ascii.eqb c "[" = false /\ Ascii.eqb c backslash = false /\
  literal t = true.
Proof.
  unfold literal. simpl. intros H. apply negb_true_iff in H.
  repeat (apply orb_false_elim in H; destruct H as [H ?]).
  repeat match goal with
         | H : (_ || _)%bool = false |- _ =>
           apply orb_false_elim in H; destruct H
         end.
  repeat split; trivial. apply negb_true_iff.
  repeat (apply orb_false_intro; trivial).
Qed.

Lemma literal_append (a b : string) :
  literal (a ++ b) = literal a && literal b.
Proof.
  unfold literal. rewrite !Contains_byte_append.
  destruct (Contains_byte a "*"), (Contains_byte a "?"), (Contains_byte a "["),
    (Contains_byte a backslash), (Contains_byte b "*"), (Contains_byte b "?"),
    (Contains_byte b "["), (Contains_byte b backslash); reflexivity.
Qed.

Lemma strip_stars_literal (c : ascii) (t : string) :
  Ascii.eqb c "*" = false ->
  strip_stars false (String c t) = (false, String c t).
Proof.
  intros Hc. destruct c as [[] [] [] [] [] [] [] []]; try reflexivity.
  discriminate.
Qed.

Lemma scan_literal (s : string) :
  literal s = true -> scan false (s ++ "*") = String.length s.
Proof.
  induction s as [|c t IH]; intros H; [reflexivity|].
  apply literal_cons in H as (Hs & _ & Hb & Hk & Ht).
  simpl. rewrite Hk, Hb, Hs.
  destruct (Ascii.eqb c "]"); now rewrite (IH Ht).
Qed.

(** The pattern [key*] for a key without metacharacter: one chunk, the
    key, then the star. *)
Lemma scanChunk_literal (c : ascii) (t : string) :
  literal (String c t) = true ->
  scanChunk (String c t ++ "*") = (false, String c t, "*").
Proof.
  intros H. unfold scanChunk.
  pose proof (literal_cons c t H) as (Hs & _).
  change (String c t ++ "*") with (String c (t ++ "*")).
  rewrite (strip_stars_literal c _ Hs).
  change (String c (t ++ "*")) with (String c t ++ "*").
  rewrite (scan_literal _ H).
  now rewrite take_append, drop_append.
Qed.

(** A chunk without metacharacter matches the strings it is a prefix
    of. *)
Lemma matchChunk_loop_literal (chunk : string) :
  literal chunk = true ->
  forall fuel s failed,
  (String.length chunk < fuel)%nat ->
  matchChunk_loop fuel chunk s failed
  = if failed || negb (String.prefix chunk s) then ("", false, None)
    else (drop (String.length chunk) s, true, None).
Proof.
  induction chunk as [|c ct IH]; intros H fuel s failed Hf.
  - destruct fuel as [|fuel]; [simpl in Hf; lia|]. simpl.
    destruct failed; destruct s; reflexivity.
  - destruct fuel as [|fuel]; [simpl in Hf; lia|].
    apply literal_cons in H as (Hs & Hq & Hb & Hk & Ht).
    cbn [matchChunk_loop]. rewrite Hb, Hq, Hk. cbn [andb].
    simpl in Hf. cbn [drop].
    destruct failed.
    + simpl. rewrite (IH Ht) by lia. reflexivity.
    + destruct s as [|b s]; simpl.
      * rewrite (IH Ht) by lia. reflexivity.
      * rewrite (IH Ht) by lia.
        destruct (Ascii.eqb_spec c b) as [->|Hne].
        -- destruct (ascii_dec b b); [reflexivity | contradiction].
        -- destruct (ascii_dec c b); [contradiction | reflexivity].
Qed.

Lemma Contains_byte_drop (n : nat) (s : string) (c : ascii) :
  Contains_byte s c = false -> Contains_byte (drop n s) c = false.
Proof.
  revert s. induction n as [|n IH]; intros [|x s] H; simpl; trivial.
  simpl in H. apply orb_false_elim in H as [_ H]. now apply IH.
Qed.

(** [key*], for a key without metacharacter, matches the names that
    start with the key. *)
Lemma Match_literal_star (key n : string) :
  literal key = true ->
  Contains_byte n "/" = false ->
  Match (key ++ "*") n = (String.prefix key n, None).
Proof.
  intros Hlit Hn. unfold Match. destruct key as [|c t].
  - simpl. rewrite Hn. now destruct n.
  - rewrite length_append. simpl String.length.
    replace (S (S (String.length t) + 1)) with (S (S (S (String.length t))))
      by lia.
    cbn [Match_loop].
    destruct (String.eqb_spec (String c t ++ "*") ""); [discriminate|].
    rewrite (scanChunk_literal c t Hlit). cbn [andb].
    unfold matchChunk.
    rewrite (matchChunk_loop_literal _ Hlit) by lia. cbn [orb].
    destruct (String.prefix (String c t) n) eqn:Hp.
    + cbn [negb andb]. simpl String.eqb at 2. cbn [negb].
      rewrite orb_true_r. cbn [Match_loop]. simpl.
      destruct n as [|x n]; [reflexivity|].
      simpl in Hn. apply orb_false_elim in Hn as [_ Hn].
      now rewrite (Contains_byte_drop (String.length t) n "/" Hn).
    + reflexivity.
Qed.

(* ================================================================= *)
(** ** Key *)

(** The guard after [os.Hostname] compares [err] with itself, so it is
    never taken. *)
Lemma Key_hostname_guard_dead (env : KeyEnv) (id : Z) :
  Key env id =
  let host := fst (Hostname env) in
  let key := FormatInt (Unix_now env) ++ "." ++ host ++ "."
             ++ FormatInt (Getpid env) ++ FormatInt id in
  match snd (ReadFull env) with
  | Some e => ("", Some e, wrap64 (id + 1))
  | None => (key ++ EncodeToString (fst (ReadFull env)), None, wrap64 (id + 1))
  end.
Proof.
  unfold Key. destruct (Hostname env) as [host err].
  rewrite error_neq_same, lit_057_slash, lit_072_colon, !Replace_same.
  destruct (ReadFull env) as [bs [e|]]; simpl; [reflexivity|].
  now norm_append.
Qed.

(** X2: A failing read of the random bytes is reported, with an empty key. *)
Lemma Key_random_failure (env : KeyEnv) (id : Z) (bs : string) (e : error) :
  ReadFull env = (bs, Some e) ->
  Key env id = ("", Some e, wrap64 (id + 1)).
Proof. intros H. rewrite Key_hostname_guard_dead, H. reflexivity. Qed.

(** A failing host name lookup is not reported: whatever error
    [os.Hostname] returns, [Key] goes on and returns a key. *)
Lemma Key_hostname_failure_ignored
      (now pid id : Z) (host bs : string) (e : error) :
  Key (mkKeyEnv now (host, Some e) pid (bs, None)) id =
  (FormatInt now ++ "." ++ host ++ "." ++ FormatInt pid ++ FormatInt id
     ++ EncodeToString bs, None, wrap64 (id + 1)).
Proof.
  rewrite Key_hostname_guard_dead. now norm_append.
Qed.

(** C1, at the failing input: the host name lookup fails with [EIO] (and
    the host name is empty, as [os.Hostname] leaves it), the random bytes
    are read; [Key] returns a key with an empty host field and a nil
    error, where the error of the lookup was to be returned. *)
Theorem Key_returns_key_when_hostname_fails :
  Key (mkKeyEnv 1000 ("", Some (SyscallError "uname" EIO)) 42
                ("0123456789", None)) 10000
  = ("1000..421000030313233343536373839", None, 10001%Z).
Proof. reflexivity. Qed.

(** The host name goes into the key as it is: both calls of
    [strings.Replace] replace a character by itself. *)
Lemma Key_host_field_verbatim
      (now pid id : Z) (host bs : string) :
  Key (mkKeyEnv now (host, None) pid (bs, None)) id =
  (FormatInt now ++ "." ++ host ++ "." ++ FormatInt pid ++ FormatInt id
     ++ EncodeToString bs, None, wrap64 (id + 1)).
Proof.
  rewrite Key_hostname_guard_dead. now norm_append.
Qed.

(** C2, at the failing input: for the host name [a/b:c] the key holds the
    raw ['/'] and [':'] of the host name, and no octal escape sequence. *)
Theorem Key_keeps_slash_and_colon_of_hostname :
  Key (mkKeyEnv 1000 ("a/b:c", None) 42 ("0123456789", None)) 10000
  = ("1000.a/b:c.421000030313233343536373839", None, 10001%Z).
Proof. reflexivity. Qed.

(* ================================================================= *)
(** ** Filename *)

Example Filename_scenario :
  Filename "Maildir" "1000.host.1.abcdef" fs_scenario
  = ("Maildir/cur/1000.host.1.abcdef:2,S", None).
Proof. reflexivity. Qed.

Example Filename_ambiguous :
  Filename "Maildir" "key" fs_prefix = ("", Some (KeyError "key" 2)).
Proof. reflexivity. Qed.

Example Filename_absent :
  Filename "Maildir" "nokey" fs_prefix = ("", Some (KeyError "nokey" 0)).
Proof. reflexivity. Qed.

(** An error of the glob is returned as it is. *)
Lemma Filename_glob_error (d key : string) (fs : FS) (ms : list string) (e : error) :
  Glob fs (Join [d; "cur"; key ++ "*"]) = (ms, Some e) ->
  Filename d key fs = ("", Some e).
Proof. intros H. unfold Filename. now rewrite H. Qed.

(** C7, as amended: when the glob of [key*] in cur reports no error and
    finds N paths, [Filename] returns the path if N is 1 and the
    [KeyError] with the key and N if N is 0 or above 1; it never picks the
    first of several matches. *)
Theorem Filename_by_match_count (d key : string) (fs : FS) (ms : list string) :
  Glob fs (Join [d; "cur"; key ++ "*"]) = (ms, None) ->
  (forall p, ms = [p] -> Filename d key fs = (p, None)) /\
  (List.length ms <> 1 ->
   Filename d key fs = ("", Some (KeyError key (List.length ms)))).
Proof.
  intros H. unfold Filename. rewrite H. split.
  - intros p ->. reflexivity.
  - intros Hn. destruct (Nat.eqb_spec (List.length ms) 1); [contradiction | reflexivity].
Qed.

Lemma Filename_by_match_count_witness :
  Filename "Maildir" "1000.host.1.abcdef" fs_scenario
    = ("Maildir/cur/1000.host.1.abcdef:2,S", None) /\
  Filename "Maildir" "key" fs_prefix = ("", Some (KeyError "key" 2)).
Proof.
  split.
  - apply (Filename_by_match_count "Maildir" "1000.host.1.abcdef" fs_scenario
             ["Maildir/cur/1000.host.1.abcdef:2,S"]); reflexivity.
  - apply (Filename_by_match_count "Maildir" "key" fs_prefix
             ["Maildir/cur/key"; "Maildir/cur/key2"]);
      [reflexivity | simpl; lia].
Defined.

(** C7, as stated, fails for a key that makes the pattern malformed: for
    the key [[] no name of cur matches, and [Filename] returns the
    [ErrBadPattern] of the glob, which is neither a path nor the
    [KeyError] with count 0. *)
Lemma Filename_malformed_pattern_counterexample :
  Glob fs_prefix (Join ["Maildir"; "cur"; "[" ++ "*"]) = ([], Some ErrBadPattern) /\
  Filename "Maildir" "[" fs_prefix = ("", Some ErrBadPattern) /\
  Filename "Maildir" "[" fs_prefix <> ("", Some (KeyError "[" 0)).
Proof. repeat split. discriminate. Qed.

(** [Filename] on a well-formed pattern: the names of cur that match
    [key*] decide. *)
Lemma Filename_counts_names_of_cur (d key : string) (fs : FS) (names : list string) :
  Contains_byte key "/" = false ->
  lookup (Join [d; "cur"]) (dirs fs) = Some names ->
  snd (Match (Join [d; "cur"; key ++ "*"]) "") = None ->
  Forall (fun n => snd (Match (key ++ "*") n) = None) names ->
  let ms := filter (fun n => fst (Match (key ++ "*") n)) (sort_strings names) in
  Filename d key fs =
  match ms with
  | [n] => (Join [d; "cur"; n], None)
  | _ => ("", Some (KeyError key (List.length ms)))
  end.
Proof.
  intros Hkey Hcur Hpat Hnames ms. unfold Filename.
  rewrite (Glob_in_cur d key fs Hkey), Hpat. unfold glob. rewrite Hcur.
  rewrite glob_names_filter.
  - fold ms. simpl app. rewrite length_map.
    destruct ms as [|n [|n' ms']]; try reflexivity.
    simpl. unfold Join. simpl. now rewrite !append_assoc.
  - apply Forall_forall. intros n Hin. rewrite Forall_forall in Hnames.
    apply Hnames. eapply Permutation_in; [|exact Hin].
    apply Permutation_sym, Sort_perm.
Qed.

(* ================================================================= *)
(** ** Flags *)

(** When the resolved path holds no [':'], [split[1]] is out of range and
    [Flags] panics. *)
Lemma Flags_panics_without_colon (d key : string) (fs : FS) (filename : string) :
  Filename d key fs = (filename, None) ->
  forallb (fun r => negb (rune_is colon r)) (runes_of_string filename) = true ->
  exists n, Flags d key fs = Panics (IndexOutOfRange 1 n).
Proof.
  intros HF Hno. unfold Flags. rewrite HF.
  pose proof (FieldsFunc_one_field filename _ Hno) as Hlen.
  unfold index.
  destruct (nth_error (FieldsFunc filename (rune_is colon)) 1) eqn:E.
  - assert (nth_error (FieldsFunc filename (rune_is colon)) 1 <> None)
      as Hsome by congruence.
    apply nth_error_Some in Hsome. lia.
  - simpl. eauto.
Qed.

(** C3, at the failing input: the key [k] resolves to [Maildir/cur/k],
    which has no separator; [Flags] panics with an index out of range,
    where an empty flag sequence and no error were to be returned. *)
Theorem Flags_panics_on_bare_key :
  Filename "Maildir" "k" fs_bare = ("Maildir/cur/k", None) /\
  Flags "Maildir" "k" fs_bare = Panics (IndexOutOfRange 1 1).
Proof. split; reflexivity. Qed.

Lemma length_lt_2_get (info : string) :
  (String.length info < 2)%nat <-> String.get 1 info = None.
Proof.
  destruct info as [|c0 [|c1 t]]; simpl; split; intros H;
    try reflexivity; try lia; try discriminate.
Qed.

(** With the info section read as the code reads it (the second of the
    segments the whole path splits into at [':']), [Flags]
    - fails with [FlagError{info, false}] if the section is shorter than 2
      or its second character is not [','];
    - fails with [FlagError{info, true}] if it starts with ['1'] and has
      [','] second;
    - returns the remaining characters in ascending order of code point,
      without error, if it starts with ['2'] followed by [','];
    - fails with [FlagError{info, false}] if it starts with another
      character. *)
Theorem Flags_by_info_section (d key : string) (fs : FS) (filename info : string) :
  Filename d key fs = (filename, None) ->
  nth_error (FieldsFunc filename (rune_is colon)) 1 = Some info ->
  ((String.length info < 2)%nat \/ String.get 1 info <> Some ","%char ->
   Flags d key fs = Returns ([], Some (FlagError info false))) /\
  (String.get 0 info = Some "1"%char -> String.get 1 info = Some ","%char ->
   Flags d key fs = Returns ([], Some (FlagError info true))) /\
  (String.get 0 info = Some "2"%char -> String.get 1 info = Some ","%char ->
   Flags d key fs
     = Returns (sort_runes (runes_of_string (drop 2 info)), None) /\
   Sorted Z.le (sort_runes (runes_of_string (drop 2 info))) /\
   Permutation (runes_of_string (drop 2 info))
               (sort_runes (runes_of_string (drop 2 info)))) /\
  (forall c, String.get 0 info = Some c -> c <> "1"%char -> c <> "2"%char ->
   String.get 1 info = Some ","%char ->
   Flags d key fs = Returns ([], Some (FlagError info false))).
Proof.
  intros HF Hinfo. unfold Flags, index. rewrite HF, Hinfo. simpl.
  destruct info as [|c0 [|c1 t]].
  - simpl. repeat split; intros; try discriminate; reflexivity.
  - simpl. repeat split; intros; try discriminate; reflexivity.
  - change (String.length (String c0 (String c1 t)) <? 2)%nat with false.
    unfold index_byte. simpl String.get. simpl bind. cbv iota.
    repeat split.
    + intros [Hlen | Hc1]; [simpl in Hlen; lia|].
      destruct (Ascii.eqb_spec c1 ","); [congruence | reflexivity].
    + intros H0 H1. injection H0 as ->. injection H1 as ->. reflexivity.
    + injection H as ->. injection H0 as ->. reflexivity.
    + apply sort_runes_sorted.
    + apply sort_runes_perm.
    + intros c H0 Hn1 Hn2 H1. injection H0 as ->. injection H1 as ->.
      simpl.
      destruct (Ascii.eqb_spec c "1"); [contradiction|].
      destruct (Ascii.eqb_spec c "2"); [contradiction|]. reflexivity.
Qed.

Lemma Flags_by_info_section_witness :
  Flags "Maildir" "1000.host.1.abcdef" fs_scenario = Returns ([83%Z], None) /\
  Sorted Z.le [83%Z].
Proof.
  destruct (Flags_by_info_section "Maildir" "1000.host.1.abcdef" fs_scenario
              "Maildir/cur/1000.host.1.abcdef:2,S" "2,S" eq_refl eq_refl)
    as (_ & _ & H & _).
  destruct (H eq_refl eq_refl) as (HF & HS & _).
  split; [exact HF | exact HS].
Defined.

(** C4: [Flags] does not classify a message by the info section of its
    filename.  What it reads is the second piece of the whole path between
    [':']s, whatever the separator of the mailbox is.  In a mailbox whose
    path holds a [':'], the file [k:2,RS], whose info section starts with
    ['2'] followed by [','], gets the [FlagError] of the piece [box/cur/k]
    in place of the flags [R] and [S].  In a mailbox kept with the
    separator [';'], the file [k;1,X], whose info section starts with
    ['1'] followed by [','], makes [Flags] panic in place of the
    [FlagError] marked experimental. *)
Theorem Flags_misreads_info_section :
  (clean_dir "Mail:box" = true /\ literal "Mail:box" = true /\
   FieldsFunc "k:2,RS" (rune_is colon) = ["k"; "2,RS"] /\
   Filename "Mail:box" "k" fs_colon_path = ("Mail:box/cur/k:2,RS", None) /\
   Flags "Mail:box" "k" fs_colon_path
   = Returns ([], Some (FlagError "box/cur/k" false))) /\
  (FieldsFunc "k;1,X" (rune_is semicolon) = ["k"; "1,X"] /\
   Filename "Maildir" "k" fs_semicolon_experimental
   = ("Maildir/cur/k;1,X", None) /\
   Flags "Maildir" "k" fs_semicolon_experimental
   = Panics (IndexOutOfRange 1 1)).
Proof. repeat split; reflexivity. Qed.

(* ================================================================= *)
(** ** Unseen *)

Lemma passable_first_field (Separator : rune) (n : string) :
  FieldsFunc n (rune_is Separator) <> [] ->
  index (FieldsFunc n (rune_is Separator)) 0 = Returns (key_of Separator n).
Proof.
  unfold index, key_of.
  destruct (FieldsFunc n (rune_is Separator)); [contradiction | reflexivity].
Qed.

(** The keys the loop returns are those of the names without a leading
    dot, whatever the renames do. *)
Lemma Unseen_loop_keys (Separator : rune) (d : string) (names : list string) :
  Forall (passable Separator) names ->
  forall keys err fs,
  exists err' fs',
    Unseen_loop Separator d names keys err fs
    = Returns ((keys ++ map (key_of Separator) (filter nondot names))%list, err', fs').
Proof.
  induction 1 as [|n names [Hne Hfld] _ IH]; intros keys err fs; simpl.
  - rewrite app_nil_r. eauto.
  - destruct n as [|c t]; [contradiction|].
    unfold index_byte. simpl.
    destruct (negb (Ascii.eqb c ".")) eqn:Hdot.
    + rewrite (passable_first_field _ _ (Hfld Hdot)). simpl.
      destruct (os_Rename _ _ fs) as [fs1 err1].
      destruct (IH (keys ++ [key_of Separator (String c t)])%list err1 fs1)
        as (err' & fs' & ->).
      rewrite <- app_assoc. simpl. eauto.
    + apply IH.
Qed.

(** C10: [Unseen] appends the key of a file before it renames the file, so
    when "new" lists [names], the returned keys are the keys of all the
    names without a leading dot, in the order of the listing, whether the
    rename of a file went through or failed. *)
Theorem Unseen_returns_key_of_every_file
        (Separator : rune) (d : string) (fs : FS) (names : list string) :
  Readdirnames fs (Join [d; "new"]) = (names, None) ->
  Forall (passable Separator) names ->
  exists keys err fs',
    Unseen Separator d fs = Returns (keys, err, fs') /\
    keys = map (key_of Separator) (filter nondot names) /\
    (forall n, In n names -> nondot n = true -> In (key_of Separator n) keys).
Proof.
  intros Hnames Hpass. unfold Unseen. rewrite Hnames.
  destruct (Unseen_loop_keys Separator d names Hpass [] None fs) as (err & fs' & ->).
  exists (map (key_of Separator) (filter nondot names)), err, fs'.
  repeat split.
  intros n Hin Hnd. apply in_map, filter_In. now split.
Qed.

Lemma Unseen_returns_key_of_every_file_witness :
  exists keys err fs',
    Unseen colon "Maildir" fs_two_new = Returns (keys, err, fs') /\
    keys = map (key_of colon) (filter nondot ["a"; "b"]) /\
    (forall n, In n ["a"; "b"] -> nondot n = true -> In (key_of colon n) keys).
Proof.
  apply (Unseen_returns_key_of_every_file colon "Maildir" fs_two_new ["a"; "b"]).
  - reflexivity.
  - repeat constructor; try discriminate.
Defined.

(** The error [Unseen] returns is the one of the last rename: the loop
    assigns [err] anew for every file. *)
Lemma Unseen_loop_last_rename (Separator : rune) (d : string)
      (names : list string) (n k : string) (ks : list string) :
  nondot n = true ->
  FieldsFunc n (rune_is Separator) = k :: ks ->
  forall keys err fs keys1 err1 fs1,
  Unseen_loop Separator d names keys err fs = Returns (keys1, err1, fs1) ->
  Unseen_loop Separator d (names ++ [n]) keys err fs
  = Returns ((keys1 ++ [k])%list,
             snd (os_Rename (Join [d; "new"; n])
                    (Join [d; "cur"; n ++ string_of_rune Separator ++ "2,S"]) fs1),
             fst (os_Rename (Join [d; "new"; n])
                    (Join [d; "cur"; n ++ string_of_rune Separator ++ "2,S"]) fs1)).
Proof.
  intros Hnd Hk. induction names as [|m names IH]; intros keys err fs keys1 err1 fs1.
  - simpl. intros [= <- <- <-].
    destruct n as [|c t]; [discriminate|]. simpl in Hnd.
    unfold index_byte. simpl String.get. simpl bind. rewrite Hnd, Hk. simpl.
    now destruct (os_Rename _ _ fs).
  - simpl. destruct (index_byte m 0) as [c|p]; simpl; [|discriminate].
    destruct (negb (Ascii.eqb c ".")).
    + destruct (index (FieldsFunc m (rune_is Separator)) 0) as [km|p]; simpl;
        [|discriminate].
      destruct (os_Rename _ _ fs) as [fs2 err2]. apply IH.
    + apply IH.
Qed.

(** C5, at the failing input: "new" holds [a] and [b], the rename of [a] is
    refused and the rename of [b] goes through.  [Unseen] returns a nil
    error, and [a] is still in "new": the failure is swallowed, where a
    non-nil error referencing it was to be returned. *)
Theorem Unseen_swallows_failed_rename :
  os_Rename "Maildir/new/a" "Maildir/cur/a:2,S" fs_two_new
  = (fs_two_new,
     Some (LinkError "rename" "Maildir/new/a" "Maildir/cur/a:2,S" EPERM)) /\
  Unseen colon "Maildir" fs_two_new
  = Returns (["a"; "b"], None,
             mkFS [("Maildir/new", ["a"]); ("Maildir/cur", ["old:2,S"; "b:2,S"])]
                  refuse_a).
Proof. split; reflexivity. Qed.

(** When the refused rename is the last one, its error is returned. *)
Example Unseen_reports_last_rename :
  Unseen colon "Maildir"
    (mkFS [("Maildir/new", ["b"; "a"]); ("Maildir/cur", [])] refuse_a)
  = Returns (["b"; "a"],
             Some (LinkError "rename" "Maildir/new/a" "Maildir/cur/a:2,S" EPERM),
             mkFS [("Maildir/new", ["a"]); ("Maildir/cur", ["b:2,S"])] refuse_a).
Proof. reflexivity. Qed.

(** C6, at the failing input: "new" holds the plain keys [a] and [b], cur
    is empty, and the rename of [a] is refused.  [Unseen] returns without
    error, yet "new" is not empty and cur has no [a:2,S]. *)
Theorem Unseen_succeeds_with_file_left_in_new :
  Unseen colon "Maildir" fs_plain
  = Returns (["a"; "b"], None,
             mkFS [("Maildir/new", ["a"]); ("Maildir/cur", ["b:2,S"])] refuse_a).
Proof. reflexivity. Qed.

(* ================================================================= *)
(** ** Unseen when no rename fails *)

Lemma remove_name_absent (n : string) (names : list string) :
  ~ In n names -> remove_name n names = names.
Proof.
  induction names as [|m names IH]; simpl; intros H; [reflexivity|].
  destruct (String.eqb_spec n m) as [->|_]; simpl.
  - exfalso. apply H. now left.
  - rewrite IH; [reflexivity|]. intros Hin. apply H. now right.
Qed.

Lemma remove_name_head (n : string) (names : list string) :
  ~ In n names -> remove_name n (n :: names) = names.
Proof.
  intros H. unfold remove_name. simpl. rewrite String.eqb_refl. simpl.
  now apply remove_name_absent.
Qed.

Lemma moved_inj (Separator : rune) (n m : string) :
  moved Separator n = moved Separator m -> n = m.
Proof. apply append_inj_r. Qed.

Lemma moved_no_slash (Separator : rune) (n : string) :
  Contains_byte (string_of_rune Separator) "/" = false ->
  Contains_byte n "/" = false ->
  Contains_byte (moved Separator n) "/" = false.
Proof.
  intros Hs Hn. unfold moved. now rewrite !Contains_byte_append, Hs, Hn.
Qed.

Lemma new_is_not_cur (d : string) : String.eqb (Join [d; "new"]) (Join [d; "cur"]) = false.
Proof.
  apply String.eqb_neq. unfold Join. simpl. intros H.
  apply append_inj_l in H. discriminate.
Qed.

Lemma new_path_is_not_cur_path (d n m : string) :
  String.eqb (Join [d; "new"; n]) (Join [d; "cur"; m]) = false.
Proof.
  apply String.eqb_neq. unfold Join. simpl. intros H.
  apply append_inj_l in H. discriminate.
Qed.

(** One rename of [Unseen] that the operating system performs. *)
Lemma os_Rename_new_to_cur (Separator : rune) (d n : string)
      (rest cur : list string) (R : string -> string -> option Errno) :
  Contains_byte (string_of_rune Separator) "/" = false ->
  Contains_byte n "/" = false ->
  ~ In n rest ->
  ~ In (moved Separator n) cur ->
  R (Join [d; "new"; n]) (Join [d; "cur"; moved Separator n]) = None ->
  os_Rename (Join [d; "new"; n]) (Join [d; "cur"; moved Separator n])
            (mkFS [(Join [d; "new"], n :: rest); (Join [d; "cur"], cur)] R)
  = (mkFS [(Join [d; "new"], rest);
           (Join [d; "cur"], (cur ++ [moved Separator n])%list)] R, None).
Proof.
  intros Hsep Hn Hrest Hcur HR.
  pose proof (moved_no_slash Separator n Hsep Hn) as Hm.
  unfold os_Rename. cbn [refuses dirs]. rewrite HR.
  rewrite new_path_is_not_cur_path.
  rewrite !Join_3.
  rewrite !dir_of_append, !base_of_append by (trivial; apply Join_2_nonempty).
  cbn [lookup update]. rewrite !String.eqb_refl, new_is_not_cur.
  cbn [lookup update]. rewrite !String.eqb_refl.
  unfold has_name. cbn [existsb]. rewrite String.eqb_refl. cbn [orb].
  rewrite (remove_name_head n rest Hrest), new_is_not_cur.
  now rewrite (remove_name_absent _ cur Hcur).
Qed.

Lemma Unseen_loop_moves (Separator : rune) (d : string)
      (R : string -> string -> option Errno) :
  Contains_byte (string_of_rune Separator) "/" = false ->
  forall rest done keys err,
  NoDup (done ++ rest)%list ->
  Forall (plain Separator) rest ->
  (forall n, In n rest ->
             R (Join [d; "new"; n]) (Join [d; "cur"; moved Separator n]) = None) ->
  Unseen_loop Separator d rest keys err
    (mkFS [(Join [d; "new"], rest);
           (Join [d; "cur"], map (moved Separator) done)] R)
  = Returns ((keys ++ rest)%list,
             match rest with [] => err | _ => None end,
             mkFS [(Join [d; "new"], []);
                   (Join [d; "cur"], map (moved Separator) (done ++ rest)%list)] R).
Proof.
  intros Hsep. induction rest as [|n rest IH]; intros done keys err Hnd Hplain HR.
  - simpl. now rewrite !app_nil_r.
  - inversion Hplain as [|? ? (Hdot & Hslash & Hrunes) Hplain']; subst.
    assert (n <> "") as Hne by (intros ->; discriminate).
    assert (~ In n rest /\ ~ In n done) as [Hnr Hndone].
    { apply NoDup_remove_2 in Hnd. split; intros Hin; apply Hnd, in_or_app; auto. }
    cbn [Unseen_loop].
    destruct n as [|c t]; [contradiction|].
    unfold index_byte. cbn [String.get bind]. simpl in Hdot. rewrite Hdot.
    rewrite (FieldsFunc_no_separator _ _ Hne Hrunes).
    unfold index. cbn [nth_error bind].
    fold (moved Separator (String c t)).
    rewrite (os_Rename_new_to_cur Separator d (String c t) rest _ R Hsep Hslash Hnr).
    + replace (map (moved Separator) done ++ [moved Separator (String c t)])%list
        with (map (moved Separator) (done ++ [String c t])%list)
        by (now rewrite map_app).
      rewrite IH.
      * rewrite <- !app_assoc. simpl. now destruct rest.
      * now rewrite <- app_assoc.
      * exact Hplain'.
      * intros m Hm. apply HR. now right.
    + intros Hin. apply in_map_iff in Hin as (m & Hm & Hin).
      apply moved_inj in Hm. subst m. contradiction.
    + apply HR. now left.
Qed.

(** X19: When the operating system performs every rename, [Unseen] on plain
    keys in "new" and an empty cur returns the keys without error, leaves
    "new" empty and has every file in cur under its key, the separator and
    [2,S]. *)
Theorem Unseen_moves_every_plain_file (Separator : rune) (d : string)
        (names : list string) (R : string -> string -> option Errno) :
  Contains_byte (string_of_rune Separator) "/" = false ->
  NoDup names ->
  Forall (plain Separator) names ->
  (forall n, In n names ->
             R (Join [d; "new"; n]) (Join [d; "cur"; moved Separator n]) = None) ->
  Unseen Separator d (mkFS [(Join [d; "new"], names); (Join [d; "cur"], [])] R)
  = Returns (names, None,
             mkFS [(Join [d; "new"], []);
                   (Join [d; "cur"], map (moved Separator) names)] R).
Proof.
  intros Hsep Hnd Hplain HR. unfold Unseen, Readdirnames.
  cbn [dirs lookup]. rewrite String.eqb_refl.
  pose proof (Unseen_loop_moves Separator d R Hsep names [] [] None Hnd Hplain HR)
    as Hloop.
  cbn [map app] in Hloop. rewrite Hloop. now destruct names.
Qed.

(* ================================================================= *)
(** ** Keys *)

(** [Keys] splits at [':'] whatever the separator is: it does not read
    the package variable. *)
Lemma Keys_loop_splits_at_colon (names keys : list string) :
  Forall (passable colon) names ->
  Keys_loop names keys
  = Returns (keys ++ map (key_of colon) (filter nondot names))%list.
Proof.
  intros H. revert keys. induction H as [|n names [Hne Hfld] _ IH]; intros keys; simpl.
  - now rewrite app_nil_r.
  - destruct n as [|c t]; [contradiction|].
    unfold index_byte. simpl.
    destruct (negb (Ascii.eqb c ".")) eqn:Hdot.
    + rewrite (passable_first_field _ _ (Hfld Hdot)). simpl.
      rewrite IH, <- app_assoc. reflexivity.
    + apply IH.
Qed.

(** C8, at the failing input: with the separator [';'], [Unseen] moves the
    message [k] to [k;2,S], and [Keys] then returns the whole name
    [k;2,S] where the text before the separator, [k], was to be
    returned. *)
Theorem Keys_ignores_configured_separator :
  Unseen semicolon "Maildir" fs_one_new = Returns (["k"], None, fs_one_cur) /\
  Keys "Maildir" fs_one_cur = Returns (["k;2,S"], None).
Proof. split; reflexivity. Qed.

(** With the default separator the key is found. *)
Example Keys_scenario :
  Keys "Maildir" fs_scenario = Returns (["1000.host.1.abcdef"], None).
Proof. reflexivity. Qed.

(* ================================================================= *)
(** ** SetInfo *)

(** With the default separator, [SetInfo] followed by [Flags] gives the
    flags in ascending order, in whatever order they were written. *)
Example SetInfo_then_Flags_default :
  let fs := fs_scenario in
  let key := "1000.host.1.abcdef" in
  Flags "Maildir" key (fst (SetInfo colon "Maildir" key "2,RS" fs))
    = Returns ([82%Z; 83%Z], None) /\
  Flags "Maildir" key (fst (SetInfo colon "Maildir" key "2,SR" fs))
    = Returns ([82%Z; 83%Z], None).
Proof. split; reflexivity. Qed.

(** C9, at the failing input: with the separator [';'] the key [k] is
    present once in cur; [SetInfo] succeeds and names the file [k;2,RS];
    [Flags] then finds no [':'] in the path and panics, where the flags
    ['R'], ['S'] were to be returned. *)
Theorem Flags_after_SetInfo_with_other_separator :
  Filename "Maildir" "k" fs_one_cur = ("Maildir/cur/k;2,S", None) /\
  SetInfo semicolon "Maildir" "k" "2,RS" fs_one_cur
  = (mkFS [("Maildir/new", []); ("Maildir/cur", ["k;2,RS"])] no_refusal, None) /\
  Flags "Maildir" "k"
        (mkFS [("Maildir/new", []); ("Maildir/cur", ["k;2,RS"])] no_refusal)
  = Panics (IndexOutOfRange 1 1).
Proof. repeat split. Qed.

(** The same happens with the default separator when the path of the
    mailbox holds a [':']: [Flags] splits the whole path, and takes what
    follows the first [':'] for the info section. *)
Example Flags_after_SetInfo_colon_in_path :
  let fs := mkFS [("Mail:box/new", []); ("Mail:box/cur", ["k:2,S"])] no_refusal in
  SetInfo colon "Mail:box" "k" "2,RS" fs
  = (mkFS [("Mail:box/new", []); ("Mail:box/cur", ["k:2,RS"])] no_refusal, None) /\
  Flags "Mail:box" "k" (fst (SetInfo colon "Mail:box" "k" "2,RS" fs))
  = Returns ([], Some (FlagError "box/cur/k" false)).
Proof. split; reflexivity. Qed.

(* ================================================================= *)
(** ** SetInfo followed by Flags, with the default separator *)

Lemma lookup_update (dir : string) (f : list string -> list string)
      (ds : list (string * list string)) :
  lookup dir (update dir f ds) = option_map f (lookup dir ds).
Proof.
  induction ds as [|[p names] ds IH]; simpl; [reflexivity|].
  destruct (String.eqb_spec p dir) as [->|Hne]; simpl.
  - now rewrite String.eqb_refl.
  - apply String.eqb_neq in Hne. now rewrite Hne.
Qed.

Lemma filter_perm {A : Type} (p : A -> bool) (l l' : list A) :
  Permutation l l' -> Permutation (filter p l) (filter p l').
Proof.
  induction 1 as [|x l l' _ IH|x y l|l l' l'' _ IH1 _ IH2]; simpl.
  - constructor.
  - destruct (p x); [now constructor | exact IH].
  - destruct (p x), (p y); try apply Permutation_refl. apply perm_swap.
  - eapply perm_trans; eassumption.
Qed.

Lemma filter_none {A : Type} (p : A -> bool) (l : list A) :
  (forall x, In x l -> p x = false) -> filter p l = [].
Proof.
  induction l as [|x l IH]; simpl; intros H; [reflexivity|].
  rewrite (H x) by now left. apply IH. intros y Hy. apply H. now right.
Qed.

Lemma in_remove_name (n m : string) (names : list string) :
  In m (remove_name n names) -> In m names /\ m <> n.
Proof.
  unfold remove_name. intros H. apply filter_In in H as [Hin Hne].
  split; [exact Hin|]. apply negb_true_iff, String.eqb_neq in Hne. congruence.
Qed.

Lemma prefix_append (a b : string) : String.prefix a (a ++ b) = true.
Proof.
  induction a as [|c a IH]; simpl; [now destruct b|].
  destruct (ascii_dec c c); [exact IH | contradiction].
Qed.

Lemma Join_3_inj (d sub n m : string) : Join [d; sub; n] = Join [d; sub; m] -> n = m.
Proof.
  unfold Join. simpl. intros H.
  repeat (apply append_inj_l in H; try injection H as H). exact H.
Qed.

Lemma Join_3_star (d sub key : string) :
  Join [d; sub; key ++ "*"] = Join [d; sub; key] ++ "*".
Proof. unfold Join. simpl. now norm_append. Qed.


(** With a mailbox path and a key without metacharacter, [Filename] finds
    the one name of cur that starts with the key. *)
Lemma Filename_of_literal_key (d key : string) (fs : FS)
      (names : list string) (n0 : string) :
  literal d = true -> literal key = true ->
  Contains_byte key "/" = false ->
  lookup (Join [d; "cur"]) (dirs fs) = Some names ->
  Forall (fun n => Contains_byte n "/" = false) names ->
  filter (String.prefix key) names = [n0] ->
  Filename d key fs = (Join [d; "cur"; n0], None).
Proof.
  intros Hd Hkey Hslash Hcur Hnames Hone.
  assert (literal (Join [d; "cur"; key]) = true) as Hlit.
  { unfold Join. simpl. rewrite literal_append, Hd.
    change (String "/" (String "c" (String "u" (String "r" (String "/" key)))))
      with ("/cur/" ++ key).
    now rewrite literal_append, Hkey. }
  assert (Forall (fun n => snd (Match (key ++ "*") n) = None) names) as Hok.
  { eapply Forall_impl; [|exact Hnames]. intros n Hn. simpl in Hn.
    now rewrite (Match_literal_star key n Hkey Hn). }
  rewrite (Filename_counts_names_of_cur d key fs names Hslash Hcur); trivial.
  - assert (filter (fun n => fst (Match (key ++ "*") n)) (sort_strings names) = [n0])
      as ->; [|reflexivity].
    rewrite (filter_ext_in _ (String.prefix key)).
    + apply Permutation_length_1_inv. rewrite <- Hone.
      apply filter_perm, Sort_perm.
    + intros n Hin. rewrite Forall_forall in Hnames.
      rewrite (Match_literal_star key n Hkey); [reflexivity|].
      apply Hnames. eapply Permutation_in; [|exact Hin].
      apply Permutation_sym, Sort_perm.
  - rewrite Join_3_star, (Match_literal_star _ "" Hlit); reflexivity.
Qed.





(* ================================================================= *)
(** * Further properties *)

(* ================================================================= *)
(** ** Decimal and hexadecimal text *)

Lemma to_int_not_nil (z : Z) :
  Z.to_int z <> Decimal.Pos Decimal.Nil /\ Z.to_int z <> Decimal.Neg Decimal.Nil.
Proof.
  split; intros H; pose proof (f_equal Z.of_int H) as Hz;
    rewrite DecimalZ.of_to in Hz; subst z; vm_compute in H; discriminate.
Qed.

(** [strconv.FormatInt] prints different numbers differently. *)
Lemma FormatInt_inj (a b : Z) : FormatInt a = FormatInt b -> a = b.
Proof.
  unfold FormatInt. intros H.
  apply DecimalZ.to_int_inj.
  destruct (to_int_not_nil a) as [Ha1 Ha2], (to_int_not_nil b) as [Hb1 Hb2].
  pose proof (NilZero.isi _ Ha1 Ha2) as Ia.
  pose proof (NilZero.isi _ Hb1 Hb2) as Ib.
  rewrite H in Ia. congruence.
Qed.

Lemma uint_digits (c : ascii) (d : Decimal.uint) :
  (byteZ c < 48 \/ 57 < byteZ c)%Z ->
  Contains_byte (NilEmpty.string_of_uint d) c = false.
Proof.
  intros Hc.
  induction d; cbn [NilEmpty.string_of_uint Contains_byte]; trivial;
    rewrite IHd, orb_false_r;
    apply Ascii.eqb_neq; intros <-; vm_compute in Hc; destruct Hc; discriminate.
Qed.

(** The text of a number holds digits and the sign only. *)
Lemma FormatInt_digits (z : Z) (c : ascii) :
  (byteZ c < 45 \/ 45 < byteZ c < 48 \/ 57 < byteZ c)%Z ->
  Contains_byte (FormatInt z) c = false.
Proof.
  intros Hc. unfold FormatInt.
  assert (byteZ c < 48 \/ 57 < byteZ c)%Z as Hd by lia.
  assert (forall d, Contains_byte (NilZero.string_of_uint d) c = false) as Hu.
  { intros d. destruct d; try apply (uint_digits c _ Hd).
    cbn [NilZero.string_of_uint Contains_byte].
    rewrite orb_false_r. apply Ascii.eqb_neq. intros <-.
    vm_compute in Hd. destruct Hd; discriminate. }
  destruct (Z.to_int z); cbn [NilZero.string_of_int Contains_byte]; [apply Hu|].
  rewrite Hu, orb_false_r. apply Ascii.eqb_neq. intros <-.
  vm_compute in Hc. destruct Hc as [Hc|[[Hc _]|Hc]]; discriminate.
Qed.

Lemma hexdigit_in_table (n : Z) : Contains_byte hextable (hexdigit n) = true.
Proof.
  unfold hexdigit. destruct (Z.to_nat n) as [|k]; [reflexivity|].
  do 15 (destruct k as [|k]; [reflexivity|]). reflexivity.
Qed.

Lemma Contains_byte_true (s : string) (c : ascii) :
  Contains_byte s c = true -> exists a b, s = a ++ String c b.
Proof.
  induction s as [|x s IH]; simpl; [discriminate|].
  destruct (Ascii.eqb_spec x c) as [->|_]; simpl.
  - intros _. exists "", s. reflexivity.
  - intros H. destruct (IH H) as (a & b & ->). exists (String x a), b. reflexivity.
Qed.

(** The hexadecimal text holds the digits of the table only. *)
Lemma EncodeToString_hex (bs : string) (c : ascii) :
  Contains_byte hextable c = false ->
  Contains_byte (EncodeToString bs) c = false.
Proof.
  intros Hc. induction bs as [|b bs IH]; cbn [EncodeToString Contains_byte];
    [reflexivity|].
  rewrite IH, orb_false_r.
  assert (forall n, Ascii.eqb (hexdigit n) c = false) as Hd.
  { intros n. apply Ascii.eqb_neq. intros <-.
    rewrite hexdigit_in_table in Hc. discriminate. }
  now rewrite !Hd.
Qed.

Lemma EncodeToString_length (bs : string) :
  String.length (EncodeToString bs) = 2 * String.length bs.
Proof. induction bs as [|b bs IH]; simpl; [reflexivity | rewrite IH; lia]. Qed.

Lemma append_same_length_r (a b c e : string) :
  a ++ b = c ++ e -> String.length b = String.length e -> a = c.
Proof.
  revert c. induction a as [|x a IH]; intros [|y c] H Hl; simpl in H.
  - reflexivity.
  - exfalso. apply (f_equal String.length) in H. simpl in H.
    rewrite length_append in H. lia.
  - exfalso. apply (f_equal String.length) in H. simpl in H.
    rewrite length_append in H. lia.
  - injection H as -> H. f_equal. now apply IH.
Qed.

Lemma wrap64_succ (id : Z) : wrap64 (id + 1) <> id.
Proof.
  unfold wrap64.
  change (2 ^ 63)%Z with 9223372036854775808%Z.
  change (2 ^ 64)%Z with 18446744073709551616%Z.
  Z.to_euclidean_division_equations. lia.
Qed.

(* ================================================================= *)
(** ** Key: the counter, the alphabet of a key *)

(** X1: Every call of [Key] advances the counter by one, in [int64]
    arithmetic, whether it returns a key or an error. *)
Theorem Key_counter_advances (env : KeyEnv) (id : Z) :
  snd (Key env id) = wrap64 (id + 1).
Proof.
  rewrite Key_hostname_guard_dead. cbv zeta.
  now destruct (snd (ReadFull env)).
Qed.

(** X3: Two calls of [Key] one after the other, in the same second, on the same
    host and in the same process, return different keys, whatever the
    random bytes are: the counter tells them apart. *)
Theorem Key_successive_keys_differ
        (now pid id : Z) (host bs1 bs2 : string) (herr1 herr2 : goerror) :
  String.length bs1 = String.length bs2 ->
  let first := Key (mkKeyEnv now (host, herr1) pid (bs1, None)) id in
  let second := Key (mkKeyEnv now (host, herr2) pid (bs2, None)) (snd first) in
  snd (fst first) = None /\ snd (fst second) = None /\
  fst (fst first) <> fst (fst second).
Proof.
  intros Hlen first second. subst first second.
  rewrite !Key_hostname_guard_dead. cbn [fst snd Unix_now Hostname Getpid ReadFull].
  cbv zeta. cbn [fst snd]. repeat split.
  intros H. rewrite !append_assoc in H.
  repeat (apply append_inj_l in H).
  apply append_same_length_r in H.
  - apply FormatInt_inj in H. symmetry in H. now apply wrap64_succ in H.
  - now rewrite !EncodeToString_length, Hlen.
Qed.

Lemma Key_successive_keys_differ_witness :
  fst (fst (Key (mkKeyEnv 1000 ("host", None) 42 ("0123456789", None)) 10000))
  <> fst (fst (Key (mkKeyEnv 1000 ("host", None) 42 ("0123456789", None)) 10001)).
Proof.
  exact (proj2 (proj2 (Key_successive_keys_differ 1000 42 10000 "host"
                         "0123456789" "0123456789" None None eq_refl))).
Defined.

(** X4: A key holds a ['/'] exactly when the host name does, and a [':']
    exactly when the host name does: the time, the process id, the counter
    and the random part are digits, a sign and hexadecimal digits. *)
Theorem Key_safe_iff_hostname_safe
        (now pid id : Z) (host bs : string) (herr : goerror) :
  let key := fst (fst (Key (mkKeyEnv now (host, herr) pid (bs, None)) id)) in
  Contains_byte key "/" = Contains_byte host "/" /\
  Contains_byte key ":" = Contains_byte host ":".
Proof.
  intros key. subst key. rewrite Key_hostname_guard_dead.
  cbn [fst snd Unix_now Hostname Getpid ReadFull]. cbv zeta. cbn [fst snd].
  rewrite !Contains_byte_append.
  rewrite !(FormatInt_digits _ "/"), !(FormatInt_digits _ ":")
    by (vm_compute; intuition congruence).
  rewrite !(EncodeToString_hex bs) by reflexivity.
  simpl. now rewrite !orb_false_r.
Qed.

Lemma Key_random_failure_witness :
  Key (mkKeyEnv 1000 ("host", None) 42 ("", Some ErrUnexpectedEOF)) 10000
  = ("", Some ErrUnexpectedEOF, wrap64 (10000 + 1)).
Proof.
  exact (Key_random_failure
           (mkKeyEnv 1000 ("host", None) 42 ("", Some ErrUnexpectedEOF))
           10000 "" ErrUnexpectedEOF eq_refl).
Defined.

(* ================================================================= *)
(** ** The error messages *)

(** X5: The message of a [KeyError] tells the number of matches: for one key,
    different numbers give different messages. *)
Theorem KeyError_Error_tells_count (key : string) (n m : nat) :
  KeyError_Error key n = KeyError_Error key m -> n = m.
Proof.
  unfold KeyError_Error, Itoa. intros H.
  apply append_inj_l in H. apply append_inj_l in H. apply append_inj_l in H.
  apply append_inj_r in H. apply FormatInt_inj in H. lia.
Qed.

Lemma KeyError_Error_tells_count_witness :
  KeyError_Error "key" 2 = "maildir: key key matches 2 files." /\ 2 = 2.
Proof.
  split; [reflexivity|].
  exact (KeyError_Error_tells_count "key" 2 2 eq_refl).
Defined.

(** X6: The method [Error] of a [FlagError] panics exactly when the error is
    marked experimental and its info section is shorter than the two bytes
    the method cuts off; otherwise it returns a message. *)
Theorem FlagError_Error_panics_iff (Info : string) (Experimental : bool) :
  (exists p, FlagError_Error Info Experimental = inr p) <->
  (Experimental = true /\ (String.length Info < 2)%nat).
Proof.
  unfold FlagError_Error, slice_from. destruct Experimental.
  - destruct (Nat.leb_spec 2 (String.length Info)) as [Hle|Hlt].
    + split; [intros [p H]; discriminate | intros [_ H]; lia].
    + split; [intros _; split; [reflexivity | lia] | intros _; eauto].
  - split; [intros [p H]; discriminate | intros [H _]; discriminate].
Qed.

(* ================================================================= *)
(** ** [runeSlice] and the order of the flags *)

Lemma set_nth_length {A : Type} (i : nat) (x : A) (s : list A) :
  List.length (set_nth i x s) = List.length s.
Proof.
  revert i. induction s as [|y s IH]; intros [|i]; simpl; auto.
Qed.

Lemma set_nth_perm {A : Type} (s : list A) :
  forall (j : nat) (x b : A),
  nth_error s j = Some b -> Permutation (b :: set_nth j x s) (x :: s).
Proof.
  induction s as [|y s IH]; intros [|j] x b H; simpl in *; try discriminate.
  - injection H as ->. apply perm_swap.
  - eapply perm_trans; [apply perm_swap|].
    eapply perm_trans; [apply perm_skip, (IH j x b H)|]. apply perm_swap.
Qed.

Lemma swap_perm {A : Type} (s : list A) :
  forall (i j : nat) (a b : A),
  nth_error s i = Some a -> nth_error s j = Some b ->
  Permutation (set_nth j a (set_nth i b s)) s.
Proof.
  induction s as [|x s IH]; intros [|i] [|j] a b Hi Hj; simpl in *;
    try discriminate.
  - injection Hi as ->. apply Permutation_refl.
  - injection Hi as ->. now apply set_nth_perm.
  - injection Hj as ->. now apply set_nth_perm.
  - apply perm_skip. now apply IH.
Qed.

Lemma nth_error_set_nth_same {A : Type} (s : list A) :
  forall (i : nat) (x : A),
  (i < List.length s)%nat -> nth_error (set_nth i x s) i = Some x.
Proof.
  induction s as [|y s IH]; intros [|i] x H; simpl in *; try lia; auto.
  apply IH. lia.
Qed.

Lemma nth_error_set_nth_other {A : Type} (s : list A) :
  forall (i k : nat) (x : A),
  i <> k -> nth_error (set_nth i x s) k = nth_error s k.
Proof.
  induction s as [|y s IH]; intros [|i] [|k] x H; simpl; auto; try contradiction.
Qed.

(** X8: [Swap] on two positions of the slice exchanges the two elements and
    keeps the rest: the result has the length of the slice, holds the same
    runes as often, and every other position is as before. *)
Theorem runeSlice_Swap_exchanges (s : list rune) (i j : nat) :
  (i < runeSlice_Len s)%nat -> (j < runeSlice_Len s)%nat ->
  exists s',
    runeSlice_Swap s i j = Returns s' /\
    runeSlice_Len s' = runeSlice_Len s /\
    Permutation s' s /\
    nth_error s' i = nth_error s j /\
    nth_error s' j = nth_error s i /\
    (forall k, k <> i -> k <> j -> nth_error s' k = nth_error s k).
Proof.
  unfold runeSlice_Len, runeSlice_Swap, index. intros Hi Hj.
  destruct (nth_error s i) as [a|] eqn:Ei;
    [|apply nth_error_None in Ei; lia].
  destruct (nth_error s j) as [b|] eqn:Ej;
    [|apply nth_error_None in Ej; lia].
  simpl. eexists. split; [reflexivity|]. repeat split.
  - now rewrite !set_nth_length.
  - now apply swap_perm.
  - destruct (Nat.eq_dec i j) as [->|Hne].
    + rewrite nth_error_set_nth_same by (now rewrite set_nth_length). congruence.
    + rewrite nth_error_set_nth_other by auto.
      now apply nth_error_set_nth_same.
  - apply nth_error_set_nth_same. now rewrite set_nth_length.
  - intros k Hki Hkj. now rewrite !nth_error_set_nth_other by auto.
Qed.

Lemma runeSlice_Swap_exchanges_witness :
  exists s',
    runeSlice_Swap [83%Z; 82%Z; 70%Z] 0 2 = Returns s' /\
    runeSlice_Len s' = runeSlice_Len [83%Z; 82%Z; 70%Z] /\
    Permutation s' [83%Z; 82%Z; 70%Z] /\
    nth_error s' 0 = nth_error [83%Z; 82%Z; 70%Z] 2 /\
    nth_error s' 2 = nth_error [83%Z; 82%Z; 70%Z] 0 /\
    (forall k, k <> 0 -> k <> 2 -> nth_error s' k = nth_error [83%Z; 82%Z; 70%Z] k).
Proof.
  apply (runeSlice_Swap_exchanges [83%Z; 82%Z; 70%Z] 0 2); simpl; lia.
Defined.

(** Two ascending lists with the same elements are the same list. *)
Lemma Sorted_perm_eq (l l' : list Z) :
  Sorted Z.le l -> Sorted Z.le l' -> Permutation l l' -> l = l'.
Proof.
  intros Hl. revert l'. apply Sorted_StronglySorted in Hl; [|intros x y z; lia].
  induction Hl as [|x l Hs IH Hx]; intros l' Hl' Hp.
  - apply Permutation_nil in Hp. now subst.
  - apply Sorted_StronglySorted in Hl'; [|intros a b c; lia].
    destruct Hl' as [|y l' Hs' Hy].
    + apply Permutation_sym, Permutation_nil in Hp. discriminate.
    + assert (x = y) as ->.
      { assert (In y (x :: l)) as Hiy
            by (eapply Permutation_in; [apply Permutation_sym, Hp | now left]).
        assert (In x (y :: l')) as Hix
            by (eapply Permutation_in; [apply Hp | now left]).
        rewrite Forall_forall in Hx, Hy.
        destruct Hiy as [->|Hiy]; [reflexivity|].
        destruct Hix as [->|Hix]; [reflexivity|].
        specialize (Hx y Hiy). specialize (Hy x Hix). lia. }
      f_equal. apply IH.
      * now apply StronglySorted_Sorted.
      * now apply Permutation_cons_inv in Hp.
Qed.

(** X9: The sorted flags are determined by the flags alone: every ascending
    arrangement of the runes is the one [sort.Sort] ends with, whatever the
    algorithm, and [Less] finds no pair out of order in it. *)
Theorem sort_runes_unique_ascending (rs sorted : list rune) :
  Permutation rs sorted -> Sorted Z.le sorted ->
  sorted = sort_runes rs /\
  (forall i j a b, (i <= j)%nat ->
     nth_error sorted i = Some a -> nth_error sorted j = Some b ->
     runeSlice_Less sorted j i = Returns false).
Proof.
  intros Hp Hs. split.
  - apply Sorted_perm_eq; trivial; [apply sort_runes_sorted|].
    eapply perm_trans; [apply Permutation_sym, Hp | apply sort_runes_perm].
  - intros i j a b Hij Hi Hj. unfold runeSlice_Less, index. rewrite Hj, Hi. simpl.
    f_equal. apply Z.ltb_ge.
    apply Sorted_StronglySorted in Hs; [|intros x y z; lia].
    clear Hp. revert i j Hij Hi Hj.
    induction Hs as [|x l Hs IH Hx]; intros [|i] [|j] Hij Hi Hj; simpl in *;
      try discriminate; try lia.
    + injection Hi as ->. injection Hj as ->. lia.
    + injection Hi as ->. rewrite Forall_forall in Hx.
      apply Hx. eapply nth_error_In; eassumption.
    + apply (IH i j); trivial. lia.
Qed.

Lemma sort_runes_unique_ascending_witness :
  [82%Z; 83%Z] = sort_runes [83%Z; 82%Z].
Proof.
  refine (proj1 (sort_runes_unique_ascending [83%Z; 82%Z] [82%Z; 83%Z] _ _)).
  - apply perm_swap.
  - repeat constructor. lia.
Defined.

(* ================================================================= *)
(** ** The errors of the glob *)

Lemma getEsc_error (chunk nchunk : string) (r : rune) (e : error) :
  getEsc chunk = (r, nchunk, Some e) -> e = ErrBadPattern.
Proof.
  unfold getEsc. destruct chunk as [|c t]; [now intros [= <-]|].
  destruct (Ascii.eqb c "-" || Ascii.eqb c "]"); [now intros [= <-]|].
  destruct (Ascii.eqb c backslash && String.eqb t ""); [now intros [= <-]|].
  destruct (DecodeRuneInString _) as [r0 n].
  destruct (String.eqb _ ""); [now intros [= <-]|].
  destruct ((r0 =? RuneError)%Z && (n =? 1)%nat); [now intros [= <-] | discriminate].
Qed.

Lemma class_ranges_error (fuel : nat) :
  forall chunk r matched nrange chunk' matched' e,
  class_ranges fuel chunk r matched nrange = (chunk', matched', Some e) ->
  e = ErrBadPattern.
Proof.
  induction fuel as [|fuel IH]; intros chunk r matched nrange chunk' matched' e.
  - now intros [= <-].
  - rewrite class_ranges_step.
    destruct (first_is chunk "]" && (0 <? nrange)%nat); [discriminate|].
    destruct (getEsc chunk) as [[lo chunk1] [e1|]] eqn:E1.
    + intros H; inversion H; subst. now apply getEsc_error in E1.
    + destruct (first_is chunk1 "-").
      * destruct (getEsc (drop 1 chunk1)) as [[hi chunk2] [e2|]] eqn:E2.
        -- intros H; inversion H; subst. now apply getEsc_error in E2.
        -- apply IH.
      * apply IH.
Qed.

Lemma matchChunk_loop_error (fuel : nat) :
  forall chunk s failed rest ok e,
  matchChunk_loop fuel chunk s failed = (rest, ok, Some e) -> e = ErrBadPattern.
Proof.
  induction fuel as [|fuel IH]; intros chunk s failed rest ok e; [discriminate|].
  destruct chunk as [|c ct]; [simpl; destruct failed; discriminate|].
  cbn [matchChunk_loop].
  set (failed' := if negb failed && String.eqb s "" then true else failed).
  destruct (Ascii.eqb c "[").
  - destruct (if negb failed'
              then let (r, n) := DecodeRuneInString s in (r, drop n s)
              else (0%Z, s)) as [r s1].
    destruct (if first_is ct "^" then (true, drop 1 ct) else (false, ct))
      as [negated chunk2].
    destruct (class_ranges _ chunk2 r false 0) as [[chunk3 matched] [e1|]] eqn:E.
    + intros H; inversion H; subst. now apply class_ranges_error in E.
    + apply IH.
  - destruct (Ascii.eqb c "?").
    + destruct (negb failed'); [destruct (DecodeRuneInString s)|]; apply IH.
    + destruct (Ascii.eqb c backslash && String.eqb ct ""); [now intros [= <-]|].
      destruct (negb failed'); apply IH.
Qed.

Lemma star_loop_error (chunk : string) (last : bool) (name : string) (e : error) :
  star_loop chunk last name = Fail e -> e = ErrBadPattern.
Proof.
  induction name as [|c rest IH]; simpl; [discriminate|].
  destruct (Ascii.eqb c "/"); [discriminate|].
  destruct (matchChunk chunk rest) as [[t ok] err] eqn:E.
  destruct ok.
  - destruct (last && negb (String.eqb t "")); [exact IH | discriminate].
  - destruct err as [e1|]; [|exact IH].
    intros H; inversion H; subst. now apply matchChunk_loop_error in E.
Qed.

Lemma check_rest_error (fuel : nat) :
  forall pattern e, check_rest fuel pattern = Some e -> e = ErrBadPattern.
Proof.
  induction fuel as [|fuel IH]; intros pattern e; [discriminate|].
  cbn [check_rest]. destruct (String.eqb pattern ""); [discriminate|].
  destruct (scanChunk pattern) as [[star chunk] rest].
  destruct (matchChunk chunk "") as [[t ok] [e1|]] eqn:E.
  - intros H; inversion H; subst. now apply matchChunk_loop_error in E.
  - apply IH.
Qed.

Lemma Match_loop_error (fuel : nat) :
  forall pattern name matched e,
  Match_loop fuel pattern name = (matched, Some e) -> e = ErrBadPattern.
Proof.
  induction fuel as [|fuel IH]; intros pattern name matched e; [discriminate|].
  cbn [Match_loop]. destruct (String.eqb pattern ""); [discriminate|].
  destruct (scanChunk pattern) as [[star chunk] rest].
  destruct (star && String.eqb chunk ""); [discriminate|].
  destruct (matchChunk chunk name) as [[t ok] err] eqn:E.
  destruct (ok && (String.eqb t "" || negb (String.eqb rest ""))); [apply IH|].
  destruct err as [e1|].
  - intros H; inversion H; subst. now apply matchChunk_loop_error in E.
  - destruct star.
    + destruct (star_loop chunk (String.eqb rest "") name) eqn:Es.
      * apply IH.
      * intros H; inversion H; subst. now apply star_loop_error in Es.
      * intros H; inversion H as [[Hm Hc]]. now apply check_rest_error in Hc.
    + intros H; inversion H as [[Hm Hc]]. now apply check_rest_error in Hc.
Qed.

(** What [glob] finds: every path it adds is a name of the directory that
    matches the pattern, and its only error is [ErrBadPattern]. *)
Lemma glob_names_result (dir pattern : string) (names : list string) :
  forall m ms err,
  glob_names dir pattern names m = (ms, err) ->
  (forall p, In p ms ->
     In p m \/ exists n, In n names /\ p = Join [dir; n]
                         /\ Match pattern n = (true, None)) /\
  (forall e, err = Some e -> e = ErrBadPattern).
Proof.
  induction names as [|n names IH]; intros m ms err; simpl.
  - intros [= <- <-]. split; [auto | discriminate].
  - destruct (Match pattern n) as [matched [e1|]] eqn:E.
    + intros H; inversion H; subst. split; [auto|].
      intros e H1; inversion H1; subst. now apply Match_loop_error in E.
    + intros H. apply IH in H as [Hin Herr]. split; [|exact Herr].
      intros p Hp. destruct (Hin p Hp) as [Hm|(n' & Hn' & Hp' & HM)].
      * destruct matched; [|now left].
        apply in_app_or in Hm as [Hm|[<-|[]]]; [now left|].
        right. exists n. repeat split; auto.
      * right. exists n'. repeat split; auto.
Qed.

(** The only error of [filepath.Glob] is [ErrBadPattern]. *)
Lemma Glob_error (fs : FS) (pattern : string) (ms : list string) (e : error) :
  Glob fs pattern = (ms, Some e) -> e = ErrBadPattern.
Proof.
  unfold Glob. destruct (Match pattern "") as [matched [e1|]] eqn:E; simpl.
  - intros H; inversion H; subst. now apply Match_loop_error in E.
  - destruct (negb (hasMeta pattern)); [discriminate|].
    destruct (Split pattern) as [dir file]. unfold glob.
    destruct (lookup _ _) as [names|]; [|discriminate].
    intros H. pose proof (glob_names_result _ _ _ _ _ _ H) as [_ Herr].
    now apply Herr.
Qed.

(* ================================================================= *)
(** ** Filename: its errors, its result *)

(** X10: [Filename] fails in two ways only: with the [ErrBadPattern] of the
    glob, or with a [KeyError] that carries the key and a number of matches
    other than 1; the path it returns with an error is empty. *)
Theorem Filename_errors (d key : string) (fs : FS) (p : string) (e : error) :
  Filename d key fs = (p, Some e) ->
  p = "" /\ (e = ErrBadPattern \/ exists n, n <> 1 /\ e = KeyError key n).
Proof.
  unfold Filename.
  destruct (Glob fs (Join [d; "cur"; key ++ "*"])) as [ms [e1|]] eqn:E.
  - intros H; inversion H; subst. split; [reflexivity|]. left.
    now apply Glob_error in E.
  - destruct (Nat.eqb_spec (List.length ms) 1) as [|Hne]; simpl; [discriminate|].
    intros H; inversion H; subst. split; [reflexivity|]. right. eauto.
Qed.

Lemma Filename_errors_witness :
  "" = "" /\
  (KeyError "key" 2 = ErrBadPattern \/
   exists n, n <> 1 /\ KeyError "key" 2 = KeyError "key" n).
Proof.
  exact (Filename_errors "Maildir" "key" fs_prefix "" (KeyError "key" 2) eq_refl).
Defined.

(** X11: For a clean mailbox path without metacharacter and a key without
    ['/'], a path that [Filename] returns is the path of a file of cur
    whose name matches the pattern [key*]: [Filename] never returns a path
    outside cur or the path of a file that is not there. *)
Theorem Filename_returns_file_of_cur (d key : string) (fs : FS) (p : string) :
  clean_dir d = true -> literal d = true ->
  Contains_byte key "/" = false ->
  Filename d key fs = (p, None) ->
  exists names n,
    lookup (Join [d; "cur"]) (dirs fs) = Some names /\
    In n names /\ p = Join [d; "cur"; n] /\
    Match (key ++ "*") n = (true, None).
Proof.
  intros _ _ Hkey. unfold Filename. rewrite (Glob_in_cur d key fs Hkey).
  destruct (snd (Match (Join [d; "cur"; key ++ "*"]) "")); [discriminate|].
  unfold glob. destruct (lookup (Join [d; "cur"]) (dirs fs)) as [names|];
    [|discriminate].
  destruct (glob_names _ _ _ _) as [ms [e|]] eqn:E; [discriminate|].
  destruct (Nat.eqb_spec (List.length ms) 1) as [Hone|]; simpl; [|discriminate].
  intros H; inversion H; subst. clear H.
  destruct ms as [|p [|q ms]]; try discriminate.
  apply glob_names_result in E as [Hin _].
  destruct (Hin p (or_introl eq_refl)) as [[]|(n & Hn & Hp & HM)].
  exists names, n. repeat split; trivial.
  - eapply Permutation_in; [|exact Hn]. apply Permutation_sym, Sort_perm.
  - rewrite Hp. unfold Join. simpl. now rewrite !append_assoc.
Qed.

Lemma Filename_returns_file_of_cur_witness :
  exists names n,
    lookup (Join ["Maildir"; "cur"]) (dirs fs_scenario) = Some names /\
    In n names /\
    "Maildir/cur/1000.host.1.abcdef:2,S" = Join ["Maildir"; "cur"; n] /\
    Match ("1000" ++ "*") n = (true, None).
Proof.
  apply (Filename_returns_file_of_cur "Maildir" "1000" fs_scenario); reflexivity.
Defined.

Lemma literal_Join_3 (d key : string) :
  literal d = true -> literal key = true -> literal (Join [d; "cur"; key]) = true.
Proof.
  intros Hd Hkey. unfold Join. simpl. rewrite literal_append, Hd.
  change (String "/" (String "c" (String "u" (String "r" (String "/" key)))))
    with ("/cur/" ++ key).
  now rewrite literal_append, Hkey.
Qed.

(** X12: With a clean mailbox path and a key, both without metacharacter,
    and a key without ['/'], [Filename] counts the names of cur that start
    with the key: it returns the path of the name when there is one, and
    the [KeyError] with the count when there is none or several.  A key
    that is the beginning of the key of another message is ambiguous. *)
Theorem Filename_counts_prefixes (d key : string) (fs : FS) (names : list string) :
  clean_dir d = true ->
  literal d = true -> literal key = true ->
  Contains_byte key "/" = false ->
  lookup (Join [d; "cur"]) (dirs fs) = Some names ->
  Forall (fun n => Contains_byte n "/" = false) names ->
  Filename d key fs =
  match filter (String.prefix key) names with
  | [n] => (Join [d; "cur"; n], None)
  | ms => ("", Some (KeyError key (List.length ms)))
  end.
Proof.
  intros _ Hd Hkey Hslash Hcur Hnames.
  assert (Forall (fun n => snd (Match (key ++ "*") n) = None) names) as Hok.
  { eapply Forall_impl; [|exact Hnames]. intros n Hn. simpl in Hn.
    now rewrite (Match_literal_star key n Hkey Hn). }
  rewrite (Filename_counts_names_of_cur d key fs names Hslash Hcur);
    [| rewrite Join_3_star,
         (Match_literal_star _ "" (literal_Join_3 d key Hd Hkey)); reflexivity
     | exact Hok].
  assert (Permutation (filter (String.prefix key) names)
            (filter (fun n => fst (Match (key ++ "*") n)) (sort_strings names)))
    as Hp.
  { rewrite (filter_ext_in (fun n => fst (Match (key ++ "*") n)) (String.prefix key)).
    - apply filter_perm, Sort_perm.
    - intros n Hin. rewrite Forall_forall in Hnames.
      rewrite (Match_literal_star key n Hkey); [reflexivity|].
      apply Hnames. eapply Permutation_in; [|exact Hin].
      apply Permutation_sym, Sort_perm. }
  pose proof (Permutation_length Hp) as Hlen.
  destruct (filter (String.prefix key) names) as [|n [|n' ms]].
  - apply Permutation_nil in Hp. now rewrite Hp.
  - apply Permutation_length_1_inv in Hp. now rewrite Hp.
  - destruct (filter _ (sort_strings names)) as [|m [|m' ms']];
      try discriminate. cbn [List.length] in *. now rewrite Hlen.
Qed.

Lemma Filename_counts_prefixes_witness :
  Filename "Maildir" "key" fs_prefix = ("", Some (KeyError "key" 2)) /\
  Filename "Maildir" "key2" fs_prefix = ("Maildir/cur/key2", None).
Proof.
  split.
  - apply (Filename_counts_prefixes "Maildir" "key" fs_prefix ["key2"; "key"]);
      try reflexivity; repeat constructor.
  - apply (Filename_counts_prefixes "Maildir" "key2" fs_prefix ["key2"; "key"]);
      try reflexivity; repeat constructor.
Defined.

(** X13: With a clean mailbox path and a key, both without metacharacter,
    and a key without ['/'], when the directory cur cannot be listed,
    [Filename] does not report that: the glob passes over the error, and
    [Filename] returns the [KeyError] of a key with no match. *)
Theorem Filename_without_cur (d key : string) (fs : FS) :
  clean_dir d = true ->
  literal d = true -> literal key = true ->
  Contains_byte key "/" = false ->
  lookup (Join [d; "cur"]) (dirs fs) = None ->
  Filename d key fs = ("", Some (KeyError key 0)).
Proof.
  intros _ Hd Hkey Hslash Hcur. unfold Filename.
  rewrite (Glob_in_cur d key fs Hslash).
  rewrite Join_3_star, (Match_literal_star _ "" (literal_Join_3 d key Hd Hkey))
    by reflexivity.
  cbn [snd]. unfold glob. now rewrite Hcur.
Qed.

Lemma Filename_without_cur_witness :
  Filename "Maildir" "k" (mkFS [("Maildir/new", ["k"])] no_refusal)
  = ("", Some (KeyError "k" 0)).
Proof.
  apply (Filename_without_cur "Maildir" "k"); reflexivity.
Defined.

(* ================================================================= *)
(** ** Unseen: what it moves and what it leaves *)

Lemma remove_name_app (n : string) (a b : list string) :
  remove_name n (a ++ b) = (remove_name n a ++ remove_name n b)%list.
Proof. apply filter_app. Qed.

Lemma filter_twice {A : Type} (f g : A -> bool) (l : list A) :
  filter f (filter g l) = filter (fun x => g x && f x) l.
Proof.
  induction l as [|x l IH]; simpl; [reflexivity|].
  destruct (g x); simpl; [destruct (f x)|]; now rewrite IH.
Qed.

Lemma has_name_app (m : string) (a b : list string) :
  has_name m (a ++ b) = has_name m a || has_name m b.
Proof. apply existsb_app. Qed.

Lemma has_name_In (m : string) (l : list string) :
  has_name m l = true <-> In m l.
Proof.
  unfold has_name. rewrite existsb_exists. split.
  - intros (x & Hx & E). apply String.eqb_eq in E. now subst.
  - intros H. exists m. split; [exact H | apply String.eqb_refl].
Qed.

(** One more name arrives in cur. *)
Lemma cur_after_arrival (cur0 arrived : list string) (x : string) :
  ~ In x arrived ->
  (remove_name x (cur_after cur0 arrived) ++ [x])%list
  = cur_after cur0 (arrived ++ [x]).
Proof.
  intros Hx. unfold cur_after.
  rewrite remove_name_app, (remove_name_absent x arrived Hx).
  unfold remove_name at 1. rewrite filter_twice, <- app_assoc. f_equal.
  apply filter_ext. intros m. rewrite has_name_app. unfold has_name at 3.
  simpl. rewrite orb_false_r, negb_orb, (String.eqb_sym x m). reflexivity.
Qed.

(** A rename of [Unseen] that goes through, for a name anywhere in
    "new". *)
Lemma os_Rename_from_new (Separator : rune) (d n : string)
      (new cur : list string) (R : string -> string -> option Errno) :
  Contains_byte (string_of_rune Separator) "/" = false ->
  Contains_byte n "/" = false ->
  In n new ->
  R (Join [d; "new"; n]) (Join [d; "cur"; moved Separator n]) = None ->
  os_Rename (Join [d; "new"; n]) (Join [d; "cur"; moved Separator n])
            (mkFS [(Join [d; "new"], new); (Join [d; "cur"], cur)] R)
  = (mkFS [(Join [d; "new"], remove_name n new);
           (Join [d; "cur"],
            (remove_name (moved Separator n) cur ++ [moved Separator n])%list)] R,
     None).
Proof.
  intros Hsep Hn Hin HR.
  pose proof (moved_no_slash Separator n Hsep Hn) as Hm.
  unfold os_Rename. cbn [refuses dirs]. rewrite HR.
  rewrite new_path_is_not_cur_path.
  rewrite !Join_3.
  rewrite !dir_of_append, !base_of_append by (trivial; apply Join_2_nonempty).
  cbn [lookup update]. rewrite !String.eqb_refl, new_is_not_cur.
  cbn [lookup update]. rewrite !String.eqb_refl.
  apply has_name_In in Hin. rewrite Hin.
  now rewrite new_is_not_cur.
Qed.

Lemma os_Rename_refused (oldpath newpath : string) (fs : FS) (e : Errno) :
  refuses fs oldpath newpath = Some e ->
  os_Rename oldpath newpath fs
  = (fs, Some (LinkError "rename" oldpath newpath e)).
Proof. intros H. unfold os_Rename. now rewrite H. Qed.

Lemma NoDup_app_cons_absent (done rest : list string) (n : string) :
  NoDup (done ++ n :: rest)%list -> ~ In n done /\ ~ In n rest.
Proof.
  intros H. apply NoDup_remove_2 in H.
  split; intros Hin; apply H, in_or_app; auto.
Qed.

(** The loop of [Unseen], from any point of its run: [done] are the names
    it has been through, [rest] those to come. *)
Lemma Unseen_loop_run (Separator : rune) (d : string)
      (R : string -> string -> option Errno) (cur0 : list string) :
  Contains_byte (string_of_rune Separator) "/" = false ->
  forall rest done keys err,
  NoDup (done ++ rest)%list ->
  Forall (movable Separator) rest ->
  Unseen_loop Separator d rest keys err
    (mkFS [(Join [d; "new"], (filter (stays Separator d R) done ++ rest)%list);
           (Join [d; "cur"],
            cur_after cur0 (map (moved Separator) (filter (goes Separator d R) done)))]
          R)
  = Returns ((keys ++ map (key_of Separator) (filter nondot rest))%list,
             Unseen_error Separator d R rest err,
             mkFS [(Join [d; "new"], filter (stays Separator d R) (done ++ rest)%list);
                   (Join [d; "cur"],
                    cur_after cur0
                      (map (moved Separator)
                           (filter (goes Separator d R) (done ++ rest)%list)))]
                  R).
Proof.
  intros Hsep. induction rest as [|n rest IH]; intros done keys err Hnd Hmov.
  - simpl. now rewrite !app_nil_r.
  - inversion Hmov as [|? ? ((Hne & Hfld) & Hslash) Hmov']; subst.
    destruct (NoDup_app_cons_absent done rest n Hnd) as [Hndone Hnrest].
    assert (NoDup ((done ++ [n]) ++ rest)%list) as Hnd'
        by now rewrite <- app_assoc.
    assert (forall f : string -> bool,
               filter f (done ++ n :: rest)%list
               = filter f ((done ++ [n]) ++ rest)%list) as Hsame
        by (intros f; now rewrite <- app_assoc).
    rewrite !Hsame.
    assert (forall f : string -> bool,
               filter f (done ++ [n])%list
               = (filter f done ++ (if f n then [n] else []))%list) as Hlast
        by (intros f; rewrite filter_app; simpl; now destruct (f n)).
    cbn [Unseen_loop Unseen_error filter map].
    destruct n as [|c t]; [contradiction|].
    unfold index_byte. cbn [String.get bind].
    change (negb (Ascii.eqb c ".")) with (nondot (String c t)).
    destruct (nondot (String c t)) eqn:Hdot.
    + rewrite (passable_first_field _ _ (Hfld eq_refl)). cbn [bind].
      fold (moved Separator (String c t)).
      destruct (R (Join [d; "new"; String c t])
                  (Join [d; "cur"; moved Separator (String c t)])) as [e|] eqn:HR.
      * (* refused: the file stays where it is *)
        rewrite (os_Rename_refused _ _ _ e) by exact HR.
        assert (stays Separator d R (String c t) = true) as Hst
            by (unfold stays, refused; rewrite HR; apply orb_true_r).
        assert (goes Separator d R (String c t) = false) as Hgo
            by (unfold goes, refused; rewrite HR; apply andb_false_r).
        specialize (IH (done ++ [String c t])%list
                       (keys ++ [key_of Separator (String c t)])%list
                       (Some (LinkError "rename" (Join [d; "new"; String c t])
                                (Join [d; "cur"; moved Separator (String c t)]) e))
                       Hnd' Hmov').
        rewrite (Hlast (stays Separator d R)), (Hlast (goes Separator d R)),
          Hst, Hgo, app_nil_r in IH.
        rewrite <- (app_assoc _ [String c t] rest) in IH. cbn [app] in IH.
        rewrite IH. now rewrite <- app_assoc.
      * (* moved *)
        assert (stays Separator d R (String c t) = false) as Hst
            by (unfold stays, refused; rewrite HR, Hdot; reflexivity).
        assert (goes Separator d R (String c t) = true) as Hgo
            by (unfold goes, refused; rewrite HR, Hdot; reflexivity).
        rewrite (os_Rename_from_new Separator d (String c t) _ _ R Hsep
                   (Hslash eq_refl)); [| apply in_or_app; right; now left | exact HR].
        rewrite remove_name_app.
        rewrite (remove_name_absent (String c t) (filter _ done))
          by (intros Hin; apply filter_In in Hin as [Hin _]; contradiction).
        rewrite (remove_name_head _ rest Hnrest).
        rewrite cur_after_arrival.
        -- specialize (IH (done ++ [String c t])%list
                          (keys ++ [key_of Separator (String c t)])%list None
                          Hnd' Hmov').
           rewrite (Hlast (stays Separator d R)), (Hlast (goes Separator d R)),
             Hst, Hgo, app_nil_r in IH.
           rewrite map_app in IH. cbn [map] in IH.
           rewrite IH. now rewrite <- app_assoc.
        -- intros Hin. apply in_map_iff in Hin as (m & Hm & Hin).
           apply moved_inj in Hm. subst m.
           apply filter_In in Hin as [Hin _]. contradiction.
    + (* a dotfile is passed over *)
      assert (stays Separator d R (String c t) = true) as Hst
          by (unfold stays; now rewrite Hdot).
      assert (goes Separator d R (String c t) = false) as Hgo
          by (unfold goes; now rewrite Hdot).
      specialize (IH (done ++ [String c t])%list keys err Hnd' Hmov').
      rewrite (Hlast (stays Separator d R)), (Hlast (goes Separator d R)),
        Hst, Hgo, app_nil_r in IH.
      rewrite <- (app_assoc _ [String c t] rest) in IH. cbn [app] in IH.
      exact IH.
Qed.

(** A run of [Unseen] on a mailbox with the names [names] in "new" and
    [cur0] in cur. *)
Lemma Unseen_run (Separator : rune) (d : string)
      (R : string -> string -> option Errno) (names cur0 : list string) :
  Contains_byte (string_of_rune Separator) "/" = false ->
  NoDup names ->
  Forall (movable Separator) names ->
  Unseen Separator d (mkFS [(Join [d; "new"], names); (Join [d; "cur"], cur0)] R)
  = Returns (map (key_of Separator) (filter nondot names),
             Unseen_error Separator d R names None,
             mkFS [(Join [d; "new"], filter (stays Separator d R) names);
                   (Join [d; "cur"],
                    cur_after cur0
                      (map (moved Separator) (filter (goes Separator d R) names)))]
                  R).
Proof.
  intros Hsep Hnd Hmov. unfold Unseen, Readdirnames.
  cbn [dirs lookup]. rewrite String.eqb_refl.
  pose proof (Unseen_loop_run Separator d R cur0 Hsep names [] [] None Hnd Hmov)
    as Hloop.
  cbn [filter map app] in Hloop. unfold cur_after at 1 in Hloop.
  cbn [has_name existsb negb] in Hloop.
  rewrite app_nil_r in Hloop.
  replace (filter (fun _ : string => true) cur0) with cur0 in Hloop.
  - exact Hloop.
  - clear. induction cur0 as [|x l IH]; simpl; [reflexivity | now rewrite <- IH].
Qed.

Lemma In_cur_after (cur0 arrived : list string) (m : string) :
  In m (cur_after cur0 arrived) <->
  (In m cur0 /\ ~ In m arrived) \/ In m arrived.
Proof.
  unfold cur_after. rewrite in_app_iff, filter_In, negb_true_iff.
  split.
  - intros [[Hin Hn]|H]; [left|now right]. split; [exact Hin|].
    intros Ha. apply has_name_In in Ha. congruence.
  - intros [[Hin Hn]|H]; [left|now right]. split; [exact Hin|].
    destruct (has_name m arrived) eqn:E; [|reflexivity].
    apply has_name_In in E. contradiction.
Qed.



(** X16: [Unseen] passes over the names with a leading dot: they stay in "new",
    they give no key, and nothing enters cur but the files without
    leading dot, each under its name, the separator and [2,S]. *)
Theorem Unseen_passes_over_dotfiles (Separator : rune) (d : string)
        (R : string -> string -> option Errno) (names cur0 : list string) :
  Contains_byte (string_of_rune Separator) "/" = false ->
  NoDup names ->
  Forall (movable Separator) names ->
  exists keys err new' cur',
    Unseen Separator d
           (mkFS [(Join [d; "new"], names); (Join [d; "cur"], cur0)] R)
    = Returns (keys, err,
               mkFS [(Join [d; "new"], new'); (Join [d; "cur"], cur')] R) /\
    keys = map (key_of Separator) (filter nondot names) /\
    (forall n, In n names -> nondot n = false -> In n new') /\
    (forall m, In m cur' ->
       In m cur0 \/
       exists n, In n names /\ nondot n = true /\ m = moved Separator n).
Proof.
  intros Hsep Hnd Hmov.
  rewrite (Unseen_run Separator d R names cur0 Hsep Hnd Hmov).
  do 4 eexists. split; [reflexivity|]. split; [reflexivity|]. split.
  - intros n Hin Hdot. apply filter_In. split; [exact Hin|].
    unfold stays. now rewrite Hdot.
  - intros m Hm. apply In_cur_after in Hm as [[Hm _]|Hm]; [now left|].
    right. apply in_map_iff in Hm as (n & Hn & Hm).
    apply filter_In in Hm as [Hin Hgo]. unfold goes in Hgo.
    apply andb_prop in Hgo as [Hdot _]. exists n. auto.
Qed.

Lemma Unseen_passes_over_dotfiles_witness :
  exists keys err new' cur',
    Unseen colon "Maildir"
           (mkFS [(Join ["Maildir"; "new"], [".tmp"; "b"]);
                  (Join ["Maildir"; "cur"], [])] no_refusal)
    = Returns (keys, err,
               mkFS [(Join ["Maildir"; "new"], new');
                     (Join ["Maildir"; "cur"], cur')] no_refusal) /\
    keys = map (key_of colon) (filter nondot [".tmp"; "b"]) /\
    (forall n, In n [".tmp"; "b"] -> nondot n = false -> In n new') /\
    (forall m, In m cur' ->
       In m [] \/
       exists n, In n [".tmp"; "b"] /\ nondot n = true /\ m = moved colon n).
Proof.
  apply (Unseen_passes_over_dotfiles colon "Maildir" no_refusal [".tmp"; "b"] []).
  - reflexivity.
  - repeat constructor; simpl; intuition discriminate.
  - repeat constructor; try discriminate; reflexivity.
Defined.

(** X17: [Unseen] removes no name from cur: every name of cur is a name of
    cur after the run (a file of "new" that is moved onto a name of cur
    takes the place of the file there). *)
Theorem Unseen_keeps_cur (Separator : rune) (d : string)
        (R : string -> string -> option Errno) (names cur0 : list string) :
  Contains_byte (string_of_rune Separator) "/" = false ->
  NoDup names ->
  Forall (movable Separator) names ->
  exists keys err new' cur',
    Unseen Separator d
           (mkFS [(Join [d; "new"], names); (Join [d; "cur"], cur0)] R)
    = Returns (keys, err,
               mkFS [(Join [d; "new"], new'); (Join [d; "cur"], cur')] R) /\
    forall m, In m cur0 -> In m cur'.
Proof.
  intros Hsep Hnd Hmov.
  rewrite (Unseen_run Separator d R names cur0 Hsep Hnd Hmov).
  do 4 eexists. split; [reflexivity|].
  intros m Hm. apply In_cur_after.
  destruct (in_dec string_dec m
              (map (moved Separator) (filter (goes Separator d R) names)));
    [now right | left; now split].
Qed.

Lemma Unseen_keeps_cur_witness :
  exists keys err new' cur',
    Unseen colon "Maildir"
           (mkFS [(Join ["Maildir"; "new"], ["a"; "b"]);
                  (Join ["Maildir"; "cur"], ["old:2,S"; "b:2,S"])] refuse_a)
    = Returns (keys, err,
               mkFS [(Join ["Maildir"; "new"], new');
                     (Join ["Maildir"; "cur"], cur')] refuse_a) /\
    forall m, In m ["old:2,S"; "b:2,S"] -> In m cur'.
Proof.
  apply (Unseen_keeps_cur colon "Maildir" refuse_a ["a"; "b"] ["old:2,S"; "b:2,S"]).
  - reflexivity.
  - repeat constructor; simpl; intuition discriminate.
  - repeat constructor; try discriminate; reflexivity.
Defined.

Lemma Unseen_error_none (Separator : rune) (d : string)
      (R : string -> string -> option Errno) (names : list string) :
  (forall n, In n names -> refused Separator d R n = false) ->
  Unseen_error Separator d R names None = None.
Proof.
  induction names as [|n names IH]; intros H; simpl; [reflexivity|].
  assert (refused Separator d R n = false) as Hn by (apply H; now left).
  unfold refused in Hn.
  destruct (R _ _); [discriminate|].
  destruct (nondot n); apply IH; intros m Hm; apply H; now right.
Qed.

Lemma filter_all {A : Type} (f : A -> bool) (l : list A) :
  (forall x, In x l -> f x = true) -> filter f l = l.
Proof.
  induction l as [|x l IH]; simpl; intros H; [reflexivity|].
  rewrite (H x) by now left. f_equal. apply IH. intros y Hy. apply H. now right.
Qed.

Lemma cur_after_nothing (cur0 : list string) : cur_after cur0 [] = cur0.
Proof.
  unfold cur_after. rewrite app_nil_r. now apply filter_all.
Qed.

(** X18: After a run of [Unseen] in which the operating system performed every
    rename, a second run finds nothing to do: it returns no key and no
    error and leaves the mailbox as it is. *)
Theorem Unseen_twice (Separator : rune) (d : string)
        (R : string -> string -> option Errno) (names cur0 : list string) :
  Contains_byte (string_of_rune Separator) "/" = false ->
  NoDup names ->
  Forall (movable Separator) names ->
  (forall n, In n names -> refused Separator d R n = false) ->
  exists keys fs1,
    Unseen Separator d
           (mkFS [(Join [d; "new"], names); (Join [d; "cur"], cur0)] R)
    = Returns (keys, None, fs1) /\
    Unseen Separator d fs1 = Returns ([], None, fs1).
Proof.
  intros Hsep Hnd Hmov Href.
  rewrite (Unseen_run Separator d R names cur0 Hsep Hnd Hmov).
  rewrite (Unseen_error_none Separator d R names Href).
  do 2 eexists. split; [reflexivity|].
  set (left := filter (stays Separator d R) names).
  assert (forall n, In n left -> nondot n = false) as Hdots.
  { intros n Hn. apply filter_In in Hn as [Hin Hst]. unfold stays in Hst.
    rewrite (Href n Hin), orb_false_r in Hst. now apply negb_true_iff. }
  rewrite (Unseen_run Separator d R left _ Hsep).
  - rewrite (filter_none nondot left)
      by (intros n Hn; now apply Hdots).
    rewrite (filter_none (goes Separator d R) left)
      by (intros n Hn; unfold goes; now rewrite (Hdots n Hn)).
    rewrite (filter_all (stays Separator d R) left)
      by (intros n Hn; unfold stays; now rewrite (Hdots n Hn)).
    cbn [map]. rewrite cur_after_nothing.
    rewrite Unseen_error_none; [reflexivity|].
    intros n Hn. apply Href. now apply filter_In in Hn as [Hn _].
  - now apply NoDup_filter.
  - rewrite Forall_forall in *. intros n Hn. apply Hmov.
    now apply filter_In in Hn as [Hn _].
Qed.

Lemma Unseen_twice_witness :
  exists keys fs1,
    Unseen colon "Maildir"
           (mkFS [(Join ["Maildir"; "new"], [".tmp"; "a"; "b"]);
                  (Join ["Maildir"; "cur"], ["old:2,S"])] no_refusal)
    = Returns (keys, None, fs1) /\
    Unseen colon "Maildir" fs1 = Returns ([], None, fs1).
Proof.
  apply (Unseen_twice colon "Maildir" no_refusal [".tmp"; "a"; "b"] ["old:2,S"]).
  - reflexivity.
  - repeat constructor; simpl; intuition discriminate.
  - repeat constructor; try discriminate; reflexivity.
  - reflexivity.
Defined.

Lemma Unseen_moves_every_plain_file_witness :
  Unseen colon "Maildir"
         (mkFS [(Join ["Maildir"; "new"], ["a"; "b"]);
                (Join ["Maildir"; "cur"], [])] no_refusal)
  = Returns (["a"; "b"], None,
             mkFS [(Join ["Maildir"; "new"], []);
                   (Join ["Maildir"; "cur"], map (moved colon) ["a"; "b"])]
                  no_refusal).
Proof.
  apply (Unseen_moves_every_plain_file colon "Maildir" ["a"; "b"] no_refusal).
  - reflexivity.
  - repeat constructor; simpl; intuition discriminate.
  - repeat constructor.
  - reflexivity.
Defined.

(* ================================================================= *)
(** ** Names that make the loops panic *)

Lemma fields_loop_only_separators (f : rune -> bool) (rs : list (rune * string)) :
  forallb (fun p => f (fst p)) rs = true -> fields_loop f None rs = [].
Proof.
  induction rs as [|[r bs] rs IH]; simpl; [reflexivity|].
  intros H. apply andb_prop in H as [Hr Hrs]. simpl in Hr. rewrite Hr. auto.
Qed.

(** A name made of separators only has no field. *)
Lemma FieldsFunc_only_separators (Separator : rune) (n : string) :
  only_separators Separator n = true -> FieldsFunc n (rune_is Separator) = [].
Proof.
  unfold only_separators, runes_of_string. rewrite forallb_map_fst.
  apply fields_loop_only_separators.
Qed.

Lemma Unseen_loop_app (Separator : rune) (d : string) (a b : list string) :
  forall keys err fs,
  Unseen_loop Separator d (a ++ b) keys err fs
  = match Unseen_loop Separator d a keys err fs with
    | Returns (keys', err', fs') => Unseen_loop Separator d b keys' err' fs'
    | Panics p => Panics p
    end.
Proof.
  induction a as [|n a IH]; intros keys err fs; simpl; [reflexivity|].
  destruct (index_byte n 0) as [c|p]; simpl; [|reflexivity].
  destruct (negb (Ascii.eqb c ".")); [|apply IH].
  destruct (index (FieldsFunc n (rune_is Separator)) 0) as [k|p]; simpl;
    [|reflexivity].
  destruct (os_Rename _ _ fs) as [fs' err']. apply IH.
Qed.

(** X20: A file of "new" whose name is made of separators only (the name [:],
    say) and that is listed after passable names makes [Unseen] panic with
    index 0 out of range of length 0: its name splits into no field, and
    [Unseen] returns neither keys nor an error. *)
Theorem Unseen_panics_on_separator_name (Separator : rune) (d : string) (fs : FS)
        (before after : list string) (n : string) :
  Readdirnames fs (Join [d; "new"]) = ((before ++ n :: after)%list, None) ->
  Forall (passable Separator) before ->
  nondot n = true ->
  only_separators Separator n = true ->
  Unseen Separator d fs = Panics (IndexOutOfRange 0 0).
Proof.
  intros Hnames Hbefore Hdot Hsep. unfold Unseen. rewrite Hnames.
  rewrite Unseen_loop_app.
  destruct (Unseen_loop_keys Separator d before Hbefore [] None fs)
    as (err & fs' & ->).
  destruct n as [|c t]; [discriminate|]. cbn [Unseen_loop].
  unfold index_byte. cbn [String.get bind].
  change (negb (Ascii.eqb c ".")) with (nondot (String c t)). rewrite Hdot.
  now rewrite (FieldsFunc_only_separators _ _ Hsep).
Qed.

Lemma Unseen_panics_on_separator_name_witness :
  Unseen colon "Maildir"
         (mkFS [("Maildir/new", ["a"; ":"; "b"]); ("Maildir/cur", [])] no_refusal)
  = Panics (IndexOutOfRange 0 0).
Proof.
  apply (Unseen_panics_on_separator_name colon "Maildir" _ ["a"] ["b"] ":").
  - reflexivity.
  - repeat constructor; discriminate.
  - reflexivity.
  - reflexivity.
Defined.

(* ================================================================= *)
(** ** Keys *)

Lemma Keys_loop_app (a b : list string) :
  forall keys,
  Keys_loop (a ++ b) keys
  = match Keys_loop a keys with
    | Returns keys' => Keys_loop b keys'
    | Panics p => Panics p
    end.
Proof.
  induction a as [|n a IH]; intros keys; simpl; [reflexivity|].
  destruct (index_byte n 0) as [c|p]; simpl; [|reflexivity].
  destruct (negb (Ascii.eqb c ".")); [|apply IH].
  destruct (index (FieldsFunc n (rune_is colon)) 0) as [k|p]; simpl;
    [apply IH | reflexivity].
Qed.

(** X21: [Keys] returns one key for every name of cur without a leading dot, in
    the order of the listing: the first non-empty piece of the name
    between [':']s.  Names with a leading dot are passed over. *)
Theorem Keys_lists_first_fields (d : string) (fs : FS) (names : list string) :
  Readdirnames fs (Join [d; "cur"]) = (names, None) ->
  Forall (passable colon) names ->
  Keys d fs = Returns (map (key_of colon) (filter nondot names), None).
Proof.
  intros Hnames Hpass. unfold Keys. rewrite Hnames.
  now rewrite (Keys_loop_splits_at_colon names [] Hpass).
Qed.

Lemma Keys_lists_first_fields_witness :
  Keys "Maildir"
       (mkFS [("Maildir/new", []);
              ("Maildir/cur", ["k1:2,S"; ".hidden"; "k2"; ":k3:1,x"])] no_refusal)
  = Returns (map (key_of colon)
                 (filter nondot ["k1:2,S"; ".hidden"; "k2"; ":k3:1,x"]), None).
Proof.
  apply (Keys_lists_first_fields "Maildir").
  - reflexivity.
  - repeat constructor; discriminate.
Defined.

(** X22: A file of cur whose name is made of [':'] only makes [Keys] panic with
    an index out of range. *)
Theorem Keys_panics_on_colon_name (d : string) (fs : FS)
        (before after : list string) (n : string) :
  Readdirnames fs (Join [d; "cur"]) = ((before ++ n :: after)%list, None) ->
  Forall (passable colon) before ->
  nondot n = true ->
  only_separators colon n = true ->
  Keys d fs = Panics (IndexOutOfRange 0 0).
Proof.
  intros Hnames Hbefore Hdot Hsep. unfold Keys. rewrite Hnames.
  rewrite Keys_loop_app, (Keys_loop_splits_at_colon before [] Hbefore).
  destruct n as [|c t]; [discriminate|]. cbn [Keys_loop].
  unfold index_byte. cbn [String.get bind].
  change (negb (Ascii.eqb c ".")) with (nondot (String c t)). rewrite Hdot.
  now rewrite (FieldsFunc_only_separators _ _ Hsep).
Qed.

Lemma Keys_panics_on_colon_name_witness :
  Keys "Maildir"
       (mkFS [("Maildir/new", []); ("Maildir/cur", ["a:2,S"; "::"])] no_refusal)
  = Panics (IndexOutOfRange 0 0).
Proof.
  apply (Keys_panics_on_colon_name "Maildir" _ ["a:2,S"] [] "::");
    try reflexivity.
  repeat constructor; discriminate.
Defined.

Lemma plain_moved_colon (n : string) :
  plain colon n ->
  nondot (moved colon n) = true /\
  FieldsFunc (moved colon n) (rune_is colon) = [n; "2,S"].
Proof.
  intros (Hdot & _ & Hrunes).
  assert (n <> "") as Hne by (intros ->; discriminate).
  split.
  - destruct n; [contradiction | exact Hdot].
  - unfold moved. change (string_of_rune colon) with ":".
    now apply FieldsFunc_key_info.
Qed.

(** X23: With the default separator, [Keys] after [Unseen] returns the keys
    [Unseen] returned, in the order in which cur is listed then: when
    "new" holds plain keys, cur is empty and the operating system performs
    every rename, [Unseen] returns the names of "new", and in whatever
    order the names of cur are listed afterwards, [Keys] returns the same
    keys in that order, a permutation of what [Unseen] returned. *)
Theorem Keys_after_Unseen (d : string) (names : list string)
        (R : string -> string -> option Errno) :
  NoDup names ->
  Forall (plain colon) names ->
  (forall n, In n names ->
             R (Join [d; "new"; n]) (Join [d; "cur"; moved colon n]) = None) ->
  exists fs1 cur1,
    Unseen colon d (mkFS [(Join [d; "new"], names); (Join [d; "cur"], [])] R)
    = Returns (names, None, fs1) /\
    lookup (Join [d; "cur"]) (dirs fs1) = Some cur1 /\
    Permutation (map (moved colon) names) cur1 /\
    forall (fs2 : FS) (listing : list string),
      Permutation cur1 listing ->
      Readdirnames fs2 (Join [d; "cur"]) = (listing, None) ->
      exists keys,
        Keys d fs2 = Returns (keys, None) /\
        keys = map (key_of colon) listing /\
        Permutation names keys.
Proof.
  intros Hnd Hplain HR. eexists. exists (map (moved colon) names).
  split; [|split; [|split]].
  - unfold Unseen, Readdirnames. cbn [dirs lookup]. rewrite String.eqb_refl.
    pose proof (Unseen_loop_moves colon d R eq_refl names [] [] None Hnd Hplain HR)
      as Hloop.
    cbn [map app] in Hloop. rewrite Hloop.
    destruct names; reflexivity.
  - cbn [dirs lookup]. now rewrite new_is_not_cur, String.eqb_refl.
  - apply Permutation_refl.
  - intros fs2 listing Hperm Hlist.
    assert (forall m, In m listing ->
              nondot m = true /\
              exists n, FieldsFunc m (rune_is colon) = [n; "2,S"]) as Hall.
    { intros m Hm. apply (Permutation_in _ (Permutation_sym Hperm)) in Hm.
      apply in_map_iff in Hm as (n & <- & Hn).
      rewrite Forall_forall in Hplain.
      destruct (plain_moved_colon n (Hplain n Hn)) as [Hdot Hsplit].
      split; [exact Hdot | now exists n]. }
    assert (filter nondot listing = listing) as Hfilter.
    { clear Hperm Hlist. induction listing as [|m l IH]; [reflexivity|].
      cbn [filter]. rewrite (proj1 (Hall m (or_introl eq_refl))).
      f_equal. apply IH. intros m' Hm'. apply Hall. now right. }
    exists (map (key_of colon) listing). split; [|split; [reflexivity|]].
    + unfold Keys. rewrite Hlist.
      rewrite (Keys_loop_splits_at_colon _ []).
      * cbn [app bind]. now rewrite Hfilter.
      * apply Forall_forall. intros m Hm.
        destruct (Hall m Hm) as (Hdot & n & Hsplit).
        split; [intros E; rewrite E in Hdot; discriminate|].
        intros _. rewrite Hsplit. discriminate.
    + apply Permutation_trans with (map (key_of colon) (map (moved colon) names)).
      * rewrite map_map.
        assert (map (fun n => key_of colon (moved colon n)) names = names) as ->;
          [|apply Permutation_refl].
        clear Hnd HR Hperm. induction Hplain as [|n names' Hn _ IH]; [reflexivity|].
        cbn [map]. rewrite IH. f_equal.
        destruct (plain_moved_colon n Hn) as [_ Hsplit].
        unfold key_of. now rewrite Hsplit.
      * now apply Permutation_map.
Qed.

Lemma Keys_after_Unseen_witness :
  exists keys,
    Keys "Maildir"
         (mkFS [("Maildir/new", []); ("Maildir/cur", ["b:2,S"; "a:2,S"])]
               no_refusal)
    = Returns (keys, None) /\
    keys = map (key_of colon) ["b:2,S"; "a:2,S"] /\
    Permutation ["a"; "b"] keys.
Proof.
  destruct (Keys_after_Unseen "Maildir" ["a"; "b"] no_refusal)
    as (fs1 & cur1 & HU & Hcur & Hmoved & HK).
  - repeat constructor; simpl; intuition discriminate.
  - repeat constructor.
  - reflexivity.
  - apply (HK (mkFS [("Maildir/new", []); ("Maildir/cur", ["b:2,S"; "a:2,S"])]
                    no_refusal) ["b:2,S"; "a:2,S"]).
    + apply Permutation_trans with (map (moved colon) ["a"; "b"]).
      * apply Permutation_sym, Hmoved.
      * apply perm_swap.
    + reflexivity.
Defined.

(* ================================================================= *)
(** ** Flags: its errors, the order of the flags *)

(** X24: The errors of [Flags] are those of [Filename] and the [FlagError] of
    the info section, and they come without flags.  A [FlagError] is
    marked experimental only for an info section that starts with [1,];
    one that is not marked is never for a section that starts with [1,]
    or [2,]. *)
Theorem Flags_errors (d key : string) (fs : FS) (rs : list rune) (e : error) :
  Flags d key fs = Returns (rs, Some e) ->
  rs = [] /\
  (e = ErrBadPattern \/
   (exists n, n <> 1 /\ e = KeyError key n) \/
   (exists info, e = FlagError info true /\
                 String.get 0 info = Some "1"%char /\
                 String.get 1 info = Some ","%char) \/
   (exists info, e = FlagError info false /\
                 ~ (String.get 1 info = Some ","%char /\
                    (String.get 0 info = Some "1"%char \/
                     String.get 0 info = Some "2"%char)))).
Proof.
  unfold Flags, Filename.
  destruct (Glob fs (Join [d; "cur"; key ++ "*"])) as [ms [e1|]] eqn:E.
  - intros H; inversion H; subst. split; [reflexivity|]. left.
    now apply Glob_error in E.
  - destruct (Nat.eqb_spec (List.length ms) 1) as [|Hne]; cbn [negb].
    + destruct (index _ 1) as [info|p]; cbn [bind]; [|discriminate].
      destruct info as [|c0 [|c1 t]].
      * intros H; inversion H; subst. split; [reflexivity|].
        right. right. right. exists "". split; [reflexivity|].
        intros [H1 _]. discriminate.
      * intros H; inversion H; subst. split; [reflexivity|].
        right. right. right. eexists. split; [reflexivity|].
        intros [H1 _]. discriminate.
      * change (String.length (String c0 (String c1 t)) <? 2)%nat with false.
        unfold index_byte. cbn [String.get bind]. cbv iota.
        simpl Nat.eqb. cbv iota.
        destruct (Ascii.eqb_spec c1 ",") as [->|Hc1]; cbn [negb].
        -- destruct (Ascii.eqb_spec c0 "1") as [->|Hc0].
           ++ intros H; inversion H; subst. split; [reflexivity|].
              right. right. left. eexists. repeat split.
           ++ destruct (Ascii.eqb_spec c0 "2") as [->|Hc2]; cbn [negb];
                [discriminate|].
              intros H; inversion H; subst. split; [reflexivity|].
              right. right. right. eexists. split; [reflexivity|].
              intros [_ [H0|H0]]; simpl in H0; congruence.
        -- intros H; inversion H; subst. split; [reflexivity|].
           right. right. right. eexists. split; [reflexivity|].
           intros [H1 _]. simpl in H1. congruence.
    + intros H; inversion H; subst. split; [reflexivity|].
      right. left. eauto.
Qed.

Lemma Flags_errors_witness :
  @nil rune = [] /\
  (FlagError "1,X" true = ErrBadPattern \/
   (exists n, n <> 1 /\ FlagError "1,X" true = KeyError "k" n) \/
   (exists info, FlagError "1,X" true = FlagError info true /\
                 String.get 0 info = Some "1"%char /\
                 String.get 1 info = Some ","%char) \/
   (exists info, FlagError "1,X" true = FlagError info false /\
                 ~ (String.get 1 info = Some ","%char /\
                    (String.get 0 info = Some "1"%char \/
                     String.get 0 info = Some "2"%char)))).
Proof.
  exact (Flags_errors "Maildir" "k"
           (mkFS [("Maildir/new", []); ("Maildir/cur", ["k:1,X"])] no_refusal)
           [] (FlagError "1,X" true) eq_refl).
Defined.

(** X7: The method [Error] returns a message for every [FlagError] that
    [Flags] returns: an info section that is marked experimental has the
    two bytes the method cuts off. *)
Theorem FlagError_of_Flags_has_message (d key : string) (fs : FS)
        (rs : list rune) (info : string) (experimental : bool) :
  Flags d key fs = Returns (rs, Some (FlagError info experimental)) ->
  FlagError_Error info experimental
  = inl (if experimental
         then "maildir: experimental info section encountered: " ++ drop 2 info
         else "maildir: bad info section encountered: " ++ info).
Proof.
  unfold Flags, Filename.
  destruct (Glob fs (Join [d; "cur"; key ++ "*"])) as [ms [e1|]] eqn:E.
  - intros H; inversion H; subst. apply Glob_error in E. discriminate.
  - destruct (Nat.eqb_spec (List.length ms) 1) as [|Hne]; cbn [negb];
      [|discriminate].
    destruct (index _ 1) as [i|p]; cbn [bind]; [|discriminate].
    destruct i as [|c0 [|c1 t]].
    + intros H; inversion H; subst. reflexivity.
    + intros H; inversion H; subst. reflexivity.
    + change (String.length (String c0 (String c1 t)) <? 2)%nat with false.
      unfold index_byte. cbn [String.get bind]. cbv iota.
      simpl Nat.eqb. cbv iota.
      destruct (negb (Ascii.eqb c1 ","));
        [intros H; inversion H; subst; reflexivity|].
      destruct (Ascii.eqb c0 "1");
        [intros H; inversion H; subst; reflexivity|].
      destruct (negb (Ascii.eqb c0 "2")); [|discriminate].
      intros H; inversion H; subst; reflexivity.
Qed.

Lemma FlagError_of_Flags_has_message_witness :
  FlagError_Error "1,X" true
  = inl "maildir: experimental info section encountered: X".
Proof.
  exact (FlagError_of_Flags_has_message "Maildir" "k"
           (mkFS [("Maildir/new", []); ("Maildir/cur", ["k:1,X"])] no_refusal)
           [] "1,X" true eq_refl).
Defined.





(* ================================================================= *)
(** ** SetInfo: what it renames and what it leaves *)

Lemma lookup_update_other (dir dir' : string) (f : list string -> list string)
      (ds : list (string * list string)) :
  dir <> dir' -> lookup dir' (update dir f ds) = lookup dir' ds.
Proof.
  intros Hne. induction ds as [|[p names] ds IH]; simpl; [reflexivity|].
  destruct (String.eqb_spec p dir) as [->|Hp]; simpl.
  - apply String.eqb_neq in Hne. now rewrite Hne.
  - now rewrite IH.
Qed.

(** [SetInfo] on a key that one name [n0] of cur starts with, when the
    operating system performs the rename: the file system afterwards. *)
Lemma SetInfo_effect (Separator : rune) (d key info : string) (fs : FS)
      (names : list string) (n0 : string) :
  literal d = true -> literal key = true ->
  Contains_byte key "/" = false ->
  Contains_byte (string_of_rune Separator) "/" = false ->
  Contains_byte info "/" = false ->
  lookup (Join [d; "cur"]) (dirs fs) = Some names ->
  Forall (fun n => Contains_byte n "/" = false) names ->
  filter (String.prefix key) names = [n0] ->
  refuses fs (Join [d; "cur"; n0])
          (Join [d; "cur"; key ++ string_of_rune Separator ++ info]) = None ->
  exists fs' names',
    SetInfo Separator d key info fs = (fs', None) /\
    refuses fs' = refuses fs /\
    lookup (Join [d; "cur"]) (dirs fs') = Some names' /\
    names' = (if String.eqb n0 (key ++ string_of_rune Separator ++ info)
              then names
              else (remove_name n0 names
                      ++ [(key ++ string_of_rune Separator ++ info)%string])%list) /\
    (forall dir, dir <> Join [d; "cur"] ->
                 lookup dir (dirs fs') = lookup dir (dirs fs)) /\
    Forall (fun n => Contains_byte n "/" = false) names' /\
    filter (String.prefix key) names'
    = [key ++ string_of_rune Separator ++ info].
Proof.
  intros Hd Hkey Hks Hsep Hinfo Hcur Hnames Hone HR.
  set (new := key ++ string_of_rune Separator ++ info) in *.
  assert (Contains_byte new "/" = false) as Hnew
      by (unfold new; now rewrite !Contains_byte_append, Hks, Hsep, Hinfo).
  assert (String.prefix key new = true) as Hpnew by apply prefix_append.
  assert (In n0 names /\ String.prefix key n0 = true) as [Hin0 Hp0]
      by (apply filter_In; rewrite Hone; now left).
  assert (Contains_byte n0 "/" = false) as Hn0
      by (rewrite Forall_forall in Hnames; now apply Hnames).
  assert (forall m, In m names -> String.prefix key m = true -> m = n0) as Honly.
  { intros m Hm Hpm.
    assert (In m (filter (String.prefix key) names)) as Hf
        by (apply filter_In; now split).
    rewrite Hone in Hf. destruct Hf as [Hf|[]]. now symmetry. }
  unfold SetInfo.
  rewrite (Filename_of_literal_key d key fs names n0 Hd Hkey Hks Hcur Hnames Hone).
  fold new. unfold os_Rename. rewrite HR. rewrite !Join_3.
  rewrite !dir_of_append, !base_of_append by (trivial; apply Join_2_nonempty).
  rewrite Hcur. apply has_name_In in Hin0 as Hhas. rewrite Hhas.
  destruct (String.eqb_spec (Join [d; "cur"] ++ "/" ++ n0)
                            (Join [d; "cur"] ++ "/" ++ new)) as [E|E].
  - apply append_inj_l in E. injection E as E. subst n0.
    exists fs, names. rewrite String.eqb_refl. repeat split; trivial.
  - assert (n0 <> new) as Hne by (intros ->; now apply E).
    apply String.eqb_neq in Hne as Hneb. rewrite Hneb.
    assert (~ In new (remove_name n0 names)) as Habs.
    { intros Hin. apply in_remove_name in Hin as [Hin Hx].
      apply Hx. now apply Honly. }
    do 2 eexists. split; [reflexivity|]. cbn [refuses dirs].
    rewrite !lookup_update, Hcur. cbn [option_map].
    rewrite (remove_name_absent new _ Habs).
    repeat split.
    + intros dir Hdir. rewrite !lookup_update_other by congruence. reflexivity.
    + apply Forall_app. split; [|now constructor].
      apply Forall_forall. intros m Hm. apply in_remove_name in Hm as [Hm _].
      rewrite Forall_forall in Hnames. now apply Hnames.
    + rewrite filter_app. cbn [filter]. rewrite Hpnew.
      rewrite filter_none; [reflexivity|].
      intros m Hm. apply in_remove_name in Hm as [Hm Hx].
      destruct (String.prefix key m) eqn:Hpm; [|reflexivity].
      exfalso. apply Hx. now apply Honly.
Qed.



(** X14: With a clean mailbox path and a key, both without metacharacter,
    a key, separator and info without ['/'] that make a proper name, and
    one name of cur that starts with the key, a [SetInfo] whose rename the
    operating system performs returns no error, and the key resolves to
    the renamed file afterwards, with any separator: [Filename] returns
    the path made of the key, the separator and the info. *)
Theorem Filename_after_SetInfo (Separator : rune) (d key info : string)
        (fs : FS) (names : list string) (n0 : string) :
  clean_dir d = true ->
  valid_name (key ++ string_of_rune Separator ++ info) = true ->
  literal d = true -> literal key = true ->
  Contains_byte key "/" = false ->
  Contains_byte (string_of_rune Separator) "/" = false ->
  Contains_byte info "/" = false ->
  lookup (Join [d; "cur"]) (dirs fs) = Some names ->
  Forall (fun n => Contains_byte n "/" = false) names ->
  filter (String.prefix key) names = [n0] ->
  refuses fs (Join [d; "cur"; n0])
          (Join [d; "cur"; key ++ string_of_rune Separator ++ info]) = None ->
  snd (SetInfo Separator d key info fs) = None /\
  Filename d key (fst (SetInfo Separator d key info fs))
  = (Join [d; "cur"; key ++ string_of_rune Separator ++ info], None).
Proof.
  intros _ _ Hd Hkey Hks Hsep Hinfo Hcur Hnames Hone HR.
  destruct (SetInfo_effect Separator d key info fs names n0
              Hd Hkey Hks Hsep Hinfo Hcur Hnames Hone HR)
    as (fs' & names' & HS & _ & Hcur' & _ & _ & Hnames' & Hone').
  rewrite HS. split; [reflexivity|]. cbn [fst].
  exact (Filename_of_literal_key d key fs' names' _
           Hd Hkey Hks Hcur' Hnames' Hone').
Qed.

Lemma Filename_after_SetInfo_witness :
  snd (SetInfo semicolon "Maildir" "k" "2,RS" fs_one_cur) = None /\
  Filename "Maildir" "k" (fst (SetInfo semicolon "Maildir" "k" "2,RS" fs_one_cur))
  = (Join ["Maildir"; "cur"; "k" ++ string_of_rune semicolon ++ "2,RS"], None).
Proof.
  apply (Filename_after_SetInfo semicolon "Maildir" "k" "2,RS" fs_one_cur
           ["k;2,S"] "k;2,S"); try reflexivity.
  repeat constructor.
Defined.

(** X28: With a clean mailbox path and a key, both without metacharacter,
    a key, separator and info without ['/'] that make a proper name, and
    one name of cur that starts with the key, [SetInfo] with the same key
    and info a second time changes nothing and returns no error, when the
    operating system performs both renames. *)
Theorem SetInfo_twice (Separator : rune) (d key info : string)
        (fs : FS) (names : list string) (n0 : string) :
  clean_dir d = true ->
  valid_name (key ++ string_of_rune Separator ++ info) = true ->
  literal d = true -> literal key = true ->
  Contains_byte key "/" = false ->
  Contains_byte (string_of_rune Separator) "/" = false ->
  Contains_byte info "/" = false ->
  lookup (Join [d; "cur"]) (dirs fs) = Some names ->
  Forall (fun n => Contains_byte n "/" = false) names ->
  filter (String.prefix key) names = [n0] ->
  refuses fs (Join [d; "cur"; n0])
          (Join [d; "cur"; key ++ string_of_rune Separator ++ info]) = None ->
  refuses fs (Join [d; "cur"; key ++ string_of_rune Separator ++ info])
          (Join [d; "cur"; key ++ string_of_rune Separator ++ info]) = None ->
  exists fs',
    SetInfo Separator d key info fs = (fs', None) /\
    SetInfo Separator d key info fs' = (fs', None).
Proof.
  intros _ _ Hd Hkey Hks Hsep Hinfo Hcur Hnames Hone HR HR2.
  destruct (SetInfo_effect Separator d key info fs names n0
              Hd Hkey Hks Hsep Hinfo Hcur Hnames Hone HR)
    as (fs' & names' & HS & Href & Hcur' & _ & _ & Hnames' & Hone').
  exists fs'. split; [exact HS|].
  rewrite <- Href in HR2.
  assert (Contains_byte (key ++ string_of_rune Separator ++ info) "/" = false)
    as Hnew by (now rewrite !Contains_byte_append, Hks, Hsep, Hinfo).
  assert (has_name (key ++ string_of_rune Separator ++ info) names' = true)
    as Hhas.
  { apply has_name_In.
    apply (proj1 (filter_In (String.prefix key) _ names')).
    rewrite Hone'. now left. }
  unfold SetInfo.
  rewrite (Filename_of_literal_key d key fs' names' _
             Hd Hkey Hks Hcur' Hnames' Hone').
  unfold os_Rename. rewrite HR2, Join_3.
  rewrite dir_of_append, base_of_append by (trivial; apply Join_2_nonempty).
  now rewrite Hcur', Hhas, String.eqb_refl.
Qed.

Lemma SetInfo_twice_witness :
  exists fs',
    SetInfo colon "Maildir" "1000.host.1.abcdef" "2,RS" fs_scenario = (fs', None) /\
    SetInfo colon "Maildir" "1000.host.1.abcdef" "2,RS" fs' = (fs', None).
Proof.
  apply (SetInfo_twice colon "Maildir" "1000.host.1.abcdef" "2,RS" fs_scenario
           ["1000.host.1.abcdef:2,S"] "1000.host.1.abcdef:2,S"); try reflexivity.
  repeat constructor.
Defined.

Lemma os_Rename_all_or_nothing (oldpath newpath : string) (fs : FS) :
  snd (os_Rename oldpath newpath fs) <> None ->
  fst (os_Rename oldpath newpath fs) = fs.
Proof.
  unfold os_Rename. destruct (refuses fs oldpath newpath); [reflexivity|].
  destruct (lookup (dir_of oldpath) (dirs fs)); [|reflexivity].
  destruct (lookup (dir_of newpath) (dirs fs)); [|reflexivity].
  destruct (has_name _ _); [|reflexivity].
  destruct (String.eqb oldpath newpath); [reflexivity|].
  intros H. now contradiction H.
Qed.

(** X29: When [SetInfo] returns an error, be it the error of [Filename] or the
    error of the rename, the mailbox is as it was. *)
Theorem SetInfo_error_leaves_mailbox (Separator : rune) (d key info : string)
        (fs : FS) :
  snd (SetInfo Separator d key info fs) <> None ->
  fst (SetInfo Separator d key info fs) = fs.
Proof.
  unfold SetInfo. destruct (Filename d key fs) as [filename [e|]];
    [reflexivity|].
  apply os_Rename_all_or_nothing.
Qed.

Lemma SetInfo_error_leaves_mailbox_witness :
  fst (SetInfo colon "Maildir" "key" "2,S" fs_prefix) = fs_prefix.
Proof.
  apply (SetInfo_error_leaves_mailbox colon "Maildir" "key" "2,S" fs_prefix).
  discriminate.
Defined.
